(** * PhysicsHub: the shared physics toolkit

    A shallow embedding of the toolkit the demo pages share:
    [constants/Utils.js] (unit and canvas conversions, [integrate],
    [collideBoundary]), [physics/PhysicsBody.js], [physics/ForceCalculator.js],
    [physics/DragController.js] and the pairwise collision loop of the
    [Test] page; with them [physics/InclinedPlaneBody.js],
    [physics/Spring.ts], the [PendulumBody] of the Pendulum page and the
    predicted path of the ParabolicMotion page.

    JavaScript numbers are idealised as real numbers (exact arithmetic, no
    NaN, no rounding).  A [p5.Vector] built by [createVector(x, y)] is a pair
    of reals; its [z] component is always [0] in this code and is left out. *)

From Stdlib Require Import Reals Lra Lia List Bool String.
From stdpp Require Import base list.
Import ListNotations.

Open Scope R_scope.

(** * Part I: the program *)

(** ** Comparisons of numbers as booleans *)

Definition Rltb (a b : R) : bool := if Rlt_dec a b then true else false.
Definition Rleb (a b : R) : bool := if Rle_dec a b then true else false.
Definition Rgtb (a b : R) : bool := Rltb b a.
Definition Rgeb (a b : R) : bool := Rleb b a.
Definition Reqb (a b : R) : bool := if Req_dec_T a b then true else false.

(** ** p5.Vector *)

Record V2 : Type := mkV2 { vx : R; vy : R }.

Definition createVector (x y : R) : V2 := mkV2 x y.

(** The value of each vector method: what the receiver holds after the call
    (for the mutating methods) or what the static method returns. *)
Module Vector.

Definition add (a b : V2) : V2 := mkV2 (vx a + vx b) (vy a + vy b).
Definition sub (a b : V2) : V2 := mkV2 (vx a - vx b) (vy a - vy b).
Definition mult (a : V2) (n : R) : V2 := mkV2 (vx a * n) (vy a * n).

(** [div] by zero warns and leaves the vector as it is. *)
Definition div (a : V2) (n : R) : V2 :=
  if Reqb n 0 then a else mkV2 (vx a / n) (vy a / n).

Definition dot (a b : V2) : R := vx a * vx b + vy a * vy b.
Definition magSq (a : V2) : R := vx a * vx a + vy a * vy a.
Definition mag (a : V2) : R := sqrt (magSq a).
Definition dist (a b : V2) : R := mag (sub b a).

(** [normalize] scales by [1 / len] unless the length is zero. *)
Definition normalize (a : V2) : V2 :=
  let len := mag a in
  if Reqb len 0 then a else mult a (1 / len).

End Vector.

(** ** Vectors as mutable objects

    [integrate] is specified to leave its arguments alone, so there the
    vectors are objects in a store: a location names a cell, [copy]
    allocates the next free cell, and [add] and [mult] overwrite the cell of
    their receiver and return it. *)
Module VStore.

Definition loc := nat.

Record Heap : Type := mkHeap { cells : loc -> V2; next : loc }.

Definition St (A : Type) : Type := Heap -> A * Heap.

Definition ret {A} (a : A) : St A := fun h => (a, h).

Definition bind {A B} (m : St A) (k : A -> St B) : St B :=
  fun h => let (a, h') := m h in k a h'.

Definition write (l : loc) (v : V2) (h : Heap) : Heap :=
  mkHeap (fun l' => if Nat.eqb l' l then v else cells h l') (next h).

Definition copy (l : loc) : St loc :=
  fun h => (next h,
            mkHeap (fun l' => if Nat.eqb l' (next h) then cells h l else cells h l')
                   (S (next h))).

Definition add (l l2 : loc) : St loc :=
  fun h => (l, write l (Vector.add (cells h l) (cells h l2)) h).

Definition mult (l : loc) (n : R) : St loc :=
  fun h => (l, write l (Vector.mult (cells h l) n) h).

End VStore.

Notation "'let*' x := m 'in' k" := (VStore.bind m (fun x => k))
  (at level 10, x name, m at level 100, k at level 200).

(** ** constants/Utils.js *)
Module Utils.

Section Conversions.

(** [SCALE] (pixels per meter) is imported from [Config.js];
    [CANVAS_HEIGHT] is the module variable set by [setCanvasHeight]. *)
Variable SCALE : R.
Variable CANVAS_HEIGHT : R.

Definition physicsYToScreenY (physicsY : R) : R :=
  CANVAS_HEIGHT - physicsY * SCALE.

Definition screenYToPhysicsY (screenY : R) : R :=
  (CANVAS_HEIGHT - screenY) / SCALE.

Definition toPixels (meters : R) : R := meters * SCALE.

Definition toMeters (pixels : R) : R := pixels / SCALE.

Definition physicsToScreen (physicsPos : V2) : V2 :=
  createVector (toPixels (vx physicsPos)) (physicsYToScreenY (vy physicsPos)).

Definition screenToPhysics (screenPos : V2) : V2 :=
  createVector (toMeters (vx screenPos)) (screenYToPhysicsY (vy screenPos)).

(** Acceleration: m/s^2 to px/s^2 and back. *)
Definition accelSI_to_pxSec (a_SI : R) : R := a_SI * SCALE.
Definition accelPxSec_to_SI (a_px : R) : R := a_px / SCALE.

(** Spring constant: N/m to N/pixel and back. *)
Definition springK_SI_to_px (k_SI : R) : R := k_SI / SCALE.
Definition springK_px_to_SI (k_px : R) : R := k_px * SCALE.

(** Deprecated: [h] or [y] may be [null]; the quotient is taken before the
    test, and nothing is returned unless both are there. *)
Definition invertYAxis (h y : option R) : option R :=
  let scaledH := match h with Some h => h / SCALE | None => 0 / SCALE end in
  match h, y with
  | Some _, Some y => Some (scaledH - y)
  | _, _ => None
  end.

End Conversions.

(** Velocity Verlet integration, on the store. *)
Definition integrate (pos vel acc : VStore.loc) (dt : R)
  : VStore.St (VStore.loc * VStore.loc) :=
  let* newPos := VStore.copy pos in
  let* newVel := VStore.copy vel in
  let* velDt := (let* c := VStore.copy vel in VStore.mult c dt) in
  let* accDt2 := (let* c := VStore.copy acc in VStore.mult c (0.5 * dt * dt)) in
  let* r := VStore.add newPos velDt in
  let* _r := VStore.add r accDt2 in
  let* accDt := (let* c := VStore.copy acc in VStore.mult c dt) in
  let* _v := VStore.add newVel accDt in
  VStore.ret (newPos, newVel).

Record Box : Type := mkBox { w : R; h : R }.

(** [collideBoundary] works on copies of [pos] and [vel] and returns them;
    [acc] may be absent. *)
Definition collideBoundary (pos vel : V2) (bounds : Box)
    (radius restitution : R) (acc : option V2) : V2 * V2 :=
  let gravity := match acc with Some a => Rabs (vy a) | None => 0 end in
  (* X bounds (left/right walls) *)
  let ballLeftEdge := vx pos - radius in
  let ballRightEdge := vx pos + radius in
  let hitLeftWall := Rltb ballLeftEdge 0 in
  let hitRightWall := Rgtb ballRightEdge (w bounds) in
  let '(posx, velx) :=
    if hitLeftWall then
      let collisionPenetration := 0 - ballLeftEdge in
      (radius + collisionPenetration, Rabs (vx vel) * restitution)
    else if hitRightWall then
      let collisionPenetration := ballRightEdge - w bounds in
      (w bounds - radius - collisionPenetration, - Rabs (vx vel) * restitution)
    else (vx pos, vx vel) in
  (* Y bounds (floor/ceiling) *)
  let ballTopEdge := vy pos + radius in
  let ballBottomEdge := vy pos - radius in
  let hitCeiling := Rgtb ballTopEdge (h bounds) in
  let hitFloor := Rltb ballBottomEdge 0 in
  let '(posy, vely) :=
    if hitCeiling then
      let collisionPenetration := ballTopEdge - h bounds in
      (h bounds - radius - collisionPenetration, - Rabs (vy vel) * restitution)
    else if hitFloor then
      let collisionPenetration := 0 - ballBottomEdge in
      let velSquared := vy vel ^ 2 in
      let liftDistance := 2 * collisionPenetration in
      let work := if Rgtb gravity 0 then 2 * gravity * liftDistance else 0 in
      if Rgtb velSquared work then
        let vNew := sqrt (velSquared - work) in
        (radius + collisionPenetration, vNew * restitution)
      else (radius, 0)
    else (vy pos, vy vel) in
  (mkV2 posx posy, mkV2 velx vely).

End Utils.

(** [Math.sign] *)
Definition sign (x : R) : R :=
  if Rgtb x 0 then 1 else if Rltb x 0 then -1 else 0.

(** ** physics/ForceCalculator.js *)
Module ForceCalculator.

(** [g] defaults to 9.81 and [direction] to [null]. *)
Definition gravity (mass : R) (g : option R) (direction : option V2) : V2 :=
  let g := match g with Some g => g | None => 9.81 end in
  let mag := mass * g in
  match direction with
  | Some d => Vector.mult (Vector.normalize d) mag
  | None => mkV2 0 (- mag)
  end.

Definition spring (displacement springConstant : R) : R :=
  - springConstant * displacement.

Definition damping (velocity dampingCoefficient : R) : R :=
  - dampingCoefficient * velocity.

(** [perpComponent] is 0 when the caller leaves it out. *)
Definition normalForce (mass g angleRad perpComponent : R) : R :=
  let weightPerp := mass * g * cos angleRad in
  Rmax 0 (weightPerp - perpComponent).

(** Static friction balances the applied force up to [coefficient * N];
    beyond that the result is [null]. *)
Definition staticFriction (normalForce coefficient appliedForce : R) : option R :=
  let maxStatic := coefficient * normalForce in
  if Rleb (Rabs appliedForce) maxStatic then Some (- appliedForce) else None.

Definition kineticFriction (normalForce coefficient velocity : R) : R :=
  if Rltb (Rabs velocity) 0.001 then 0
  else
    let mag := coefficient * normalForce in
    - sign velocity * mag.

(** [appliedForce] is 0 when the caller leaves it out. *)
Definition friction (normalForce staticCoeff kineticCoeff velocity appliedForce : R) : R :=
  let isMoving := Rgtb (Rabs velocity) 0.001 in
  if negb isMoving then
    match staticFriction normalForce staticCoeff appliedForce with
    | Some staticF => staticF
    | None => - sign appliedForce * kineticCoeff * normalForce
    end
  else kineticFriction normalForce kineticCoeff velocity.

(** [linearDrag] is [false] when the caller leaves it out. *)
Definition airResistance (velocity dragCoefficient : R) (linearDrag : bool) : R :=
  let speed := Rabs velocity in
  if Rltb speed 0.001 then 0
  else
    let mag := if linearDrag then dragCoefficient * speed
               else dragCoefficient * speed * speed in
    - sign velocity * mag.

Definition tension (mass g acceleration : R) : R := mass * (g + acceleration).

Definition centripetal (mass velocity radius : R) : R :=
  (mass * velocity * velocity) / radius.

Definition buoyancy (fluidDensity volume g : R) : R := fluidDensity * volume * g.

Definition resolveForce (forceMagnitude angleRad : R) : V2 :=
  mkV2 (forceMagnitude * cos angleRad) (forceMagnitude * sin angleRad).

Record PlaneComponents : Type := mkPlaneComponents {
  parallel : R;          (* down the slope *)
  perpendicular : R      (* into the surface *)
}.

Definition inclinedPlaneComponents (weight angleRad : R) : PlaneComponents :=
  mkPlaneComponents (weight * sin angleRad) (weight * cos angleRad).

(** A force object of [netForce]: a component may be missing, and then
    counts as 0 ([force.x || 0]). *)
Record Force : Type := mkForce { fx : option R; fy : option R }.

Definition orZero (c : option R) : R := match c with Some v => v | None => 0 end.

(** [forces.reduce(...)] from [{x: 0, y: 0}], left to right. *)
Definition netForce (forces : list Force) : V2 :=
  foldl (fun sum force => mkV2 (vx sum + orZero (fx force)) (vy sum + orZero (fy force)))
        (mkV2 0 0) forces.

Definition work (force displacement : V2) : R :=
  vx force * vx displacement + vy force * vy displacement.

Definition power (force velocity : V2) : R :=
  vx force * vx velocity + vy force * vy velocity.

End ForceCalculator.

(** ** The p5 sketch instance: the fields this code reads *)

Record P5 : Type := mkP5 { mouseX : R; mouseY : R; width : R; height : R }.

(** [p.dist(x1, y1, x2, y2)] *)
Definition p5_dist (x1 y1 x2 y2 : R) : R :=
  sqrt ((x2 - x1) * (x2 - x1) + (y2 - y1) * (y2 - y1)).

(** ** physics/PhysicsBody.js *)
Module PhysicsBody.

Record Params : Type := mkParams {
  mass : R;
  size : R;
  color : string;
  shape : string;       (* "circle", "square", "polygon" *)
  restitution : R
}.

(** All vectors in physics coordinates (Y up). *)
Record State : Type := mkState {
  position : V2;
  velocity : V2;
  acceleration : V2;
  rotation : R;
  angularVelocity : R;
  angularAcceleration : R
}.

Record Trail : Type := mkTrail {
  enabled : bool;
  points : list V2;
  maxLength : R;
  trailColor : string;
  alpha : R
}.

Inductive Bounds : Type :=
| CircleBounds (center : V2) (radius : R)
| RectBounds (min max : V2).

(** The state an [InclinedPlaneBody] adds to a body. *)
Record PlaneState : Type := mkPlaneState {
  posAlongPlane : R;
  velAlongPlane : R;
  accAlongPlane : R
}.

(** The three vectors of [state] are objects of the body's own (the
    constructor's defaults, or vectors the pages build per body). *)
Record Body : Type := mkBody {
  params : Params;
  state : State;
  isMoving : bool;
  isHovered : bool;
  trail : Trail;
  bounds : Bounds;
  planeState : option PlaneState
}.

Definition with_state (b : Body) (s : State) : Body :=
  mkBody (params b) s (isMoving b) (isHovered b) (trail b) (bounds b) (planeState b).

Definition with_isMoving (b : Body) (m : bool) : Body :=
  mkBody (params b) (state b) m (isHovered b) (trail b) (bounds b) (planeState b).

Definition with_isHovered (b : Body) (hv : bool) : Body :=
  mkBody (params b) (state b) (isMoving b) hv (trail b) (bounds b) (planeState b).

Definition with_trail (b : Body) (t : Trail) : Body :=
  mkBody (params b) (state b) (isMoving b) (isHovered b) t (bounds b) (planeState b).

Definition with_bounds (b : Body) (bd : Bounds) : Body :=
  mkBody (params b) (state b) (isMoving b) (isHovered b) (trail b) bd (planeState b).

Definition with_planeState (b : Body) (ps : option PlaneState) : Body :=
  mkBody (params b) (state b) (isMoving b) (isHovered b) (trail b) (bounds b) ps.

Definition with_position (s : State) (v : V2) : State :=
  mkState v (velocity s) (acceleration s) (rotation s) (angularVelocity s)
          (angularAcceleration s).

Definition with_velocity (s : State) (v : V2) : State :=
  mkState (position s) v (acceleration s) (rotation s) (angularVelocity s)
          (angularAcceleration s).

Definition with_acceleration (s : State) (v : V2) : State :=
  mkState (position s) (velocity s) v (rotation s) (angularVelocity s)
          (angularAcceleration s).

Definition with_points (t : Trail) (ps : list V2) : Trail :=
  mkTrail (enabled t) ps (maxLength t) (trailColor t) (alpha t).

Definition computeBounds (b : Body) : Bounds :=
  let pos := position (state b) in
  let size := size (params b) in
  if String.eqb (shape (params b)) "circle" then
    CircleBounds pos (size / 2)
  else
    RectBounds (createVector (vx pos - size / 2) (vy pos - size / 2))
               (createVector (vx pos + size / 2) (vy pos + size / 2)).

(** F = ma, so a = F/m is added to the acceleration. *)
Definition applyForce (force : V2) (b : Body) : Body :=
  let acceleration' := Vector.div force (mass (params b)) in
  with_state b (with_acceleration (state b)
                  (Vector.add (acceleration (state b)) acceleration')).

(** J = m dv, so dv = J/m is added to the velocity. *)
Definition applyImpulse (impulse : V2) (b : Body) : Body :=
  let deltaV := Vector.div impulse (mass (params b)) in
  with_state b (with_velocity (state b)
                  (Vector.add (velocity (state b)) deltaV)).

(** [push] the current position, then [shift] when over the cap. *)
Definition updateTrail (b : Body) : Body :=
  let pts := points (trail b) ++ [position (state b)] in
  let pts := if Rgtb (INR (length pts)) (maxLength (trail b)) then tail pts else pts in
  with_trail b (with_points (trail b) pts).

Definition clearTrail (b : Body) : Body :=
  with_trail b (with_points (trail b) []).

Definition step (dt : R) (b : Body) : Body :=
  if Rleb dt 0 then b else
  let s := state b in
  (* Linear motion *)
  let velocity' := Vector.add (velocity s) (Vector.mult (acceleration s) dt) in
  let position' := Vector.add (position s) (Vector.mult velocity' dt) in
  (* Rotational motion *)
  let angularVelocity' := angularVelocity s + angularAcceleration s * dt in
  let rotation' := rotation s + angularVelocity' * dt in
  (* Reset acceleration *)
  let b := with_state b (mkState position' velocity' (mkV2 0 0)
                                 rotation' angularVelocity' 0) in
  (* Update derived state *)
  let b := with_isMoving b (Rgtb (Vector.mag velocity') 0.001) in
  let b := with_bounds b (computeBounds b) in
  (* Update trail *)
  if enabled (trail b) then updateTrail b else b.

(** Returns the position before the step, or nothing when [dt <= 0]. *)
Definition stepVerlet (dt : R) (previousPosition : option V2) (b : Body)
  : Body * option V2 :=
  if Rleb dt 0 then (b, None) else
  let s := state b in
  let currentPos := position s in
  let prevPos := match previousPosition with Some q => q | None => position s end in
  let displacement := Vector.sub currentPos prevPos in
  let accelerationTerm := Vector.mult (acceleration s) (dt * dt) in
  let position' := Vector.add (Vector.add (position s) displacement) accelerationTerm in
  let velocity' := Vector.div (Vector.sub position' currentPos) dt in
  let b := with_state b (mkState position' velocity' (mkV2 0 0) (rotation s)
                                 (angularVelocity s) (angularAcceleration s)) in
  let b := with_isMoving b (Rgtb (Vector.mag velocity') 0.001) in
  let b := with_bounds b (computeBounds b) in
  let b := if enabled (trail b) then updateTrail b else b in
  (b, Some currentPos).

Definition getKineticEnergy (b : Body) : R :=
  0.5 * mass (params b) * Vector.magSq (velocity (state b)).

Definition getMomentum (b : Body) : V2 :=
  Vector.mult (velocity (state b)) (mass (params b)).

Definition contains (point : V2) (b : Body) : bool :=
  match bounds b with
  | CircleBounds center radius => Rleb (Vector.dist point center) radius
  | RectBounds min max =>
      Rgeb (vx point) (vx min) && Rleb (vx point) (vx max) &&
      Rgeb (vy point) (vy min) && Rleb (vy point) (vy max)
  end.

Definition constrainToBounds (minX maxX minY maxY : R) (b : Body) : Body * bool :=
  let collided := false in
  let s := state b in
  let e := restitution (params b) in
  (* X bounds *)
  let '(s, collided) :=
    if Rltb (vx (position s)) minX then
      (with_velocity (with_position s (mkV2 minX (vy (position s))))
                     (mkV2 (vx (velocity s) * - e) (vy (velocity s))), true)
    else if Rgtb (vx (position s)) maxX then
      (with_velocity (with_position s (mkV2 maxX (vy (position s))))
                     (mkV2 (vx (velocity s) * - e) (vy (velocity s))), true)
    else (s, collided) in
  (* Y bounds (minY = floor, maxY = ceiling) *)
  let '(s, collided) :=
    if Rltb (vy (position s)) minY then
      (with_velocity (with_position s (mkV2 (vx (position s)) minY))
                     (mkV2 (vx (velocity s)) (vy (velocity s) * - e)), true)
    else if Rgtb (vy (position s)) maxY then
      (with_velocity (with_position s (mkV2 (vx (position s)) maxY))
                     (mkV2 (vx (velocity s)) (vy (velocity s) * - e)), true)
    else (s, collided) in
  (with_state b s, collided).

(** PE = m g h; [gravity] is 9.81 and [referenceHeight] 0 when left out. *)
Definition getPotentialEnergy (gravity referenceHeight : R) (b : Body) : R :=
  mass (params b) * gravity * (vy (position (state b)) - referenceHeight).

Definition with_params (b : Body) (ps : Params) : Body :=
  mkBody ps (state b) (isMoving b) (isHovered b) (trail b) (bounds b) (planeState b).

Definition with_enabled (t : Trail) (e : bool) : Trail :=
  mkTrail e (points t) (maxLength t) (trailColor t) (alpha t).

(** The object handed to [updateParams]: the keys it has replace the
    body's, the others stay. *)
Record ParamsPatch : Type := mkParamsPatch {
  new_mass : option R;
  new_size : option R;
  new_color : option string;
  new_shape : option string;
  new_restitution : option R
}.

Definition updateParams (newParams : ParamsPatch) (b : Body) : Body :=
  let old := params b in
  let b := with_params b
    (mkParams (default (mass old) (new_mass newParams))
              (default (size old) (new_size newParams))
              (default (color old) (new_color newParams))
              (default (shape old) (new_shape newParams))
              (default (restitution old) (new_restitution newParams))) in
  with_bounds b (computeBounds b).

Section Screen.

Variable SCALE : R.
Variable CANVAS_HEIGHT : R.

Definition toScreenPosition (b : Body) : V2 :=
  Utils.physicsToScreen SCALE CANVAS_HEIGHT (position (state b)).

(** Sets [isHovered] and returns it. *)
Definition checkHover (p : P5) (screenPos : V2) (b : Body) : Body * bool :=
  let mousePx := createVector (mouseX p) (mouseY p) in
  let sizePx := Utils.toPixels SCALE (size (params b)) in
  let hovered :=
    if String.eqb (shape (params b)) "circle" then
      Rleb (p5_dist (vx screenPos) (vy screenPos) (vx mousePx) (vy mousePx))
           (sizePx / 2)
    else
      Rgeb (vx mousePx) (vx screenPos - sizePx / 2) &&
      Rleb (vx mousePx) (vx screenPos + sizePx / 2) &&
      Rgeb (vy mousePx) (vy screenPos - sizePx / 2) &&
      Rleb (vy mousePx) (vy screenPos + sizePx / 2) in
  (with_isHovered b hovered, hovered).

End Screen.

End PhysicsBody.

(** ** physics/ForceCalculator.js: InclinedPlaneForces *)
Module InclinedPlaneForces.

Import PhysicsBody.

Record PlaneParams : Type := mkPlaneParams {
  gravity : R;
  angle : R;             (* degrees *)
  frictionStatic : R;
  frictionKinetic : R;
  appliedForce : R;
  appliedAngle : R       (* degrees *)
}.

Record WeightForces : Type := mkWeightForces {
  w_magnitude : R; w_parallel : R; w_perpendicular : R
}.

Record AppliedForces : Type := mkAppliedForces {
  a_magnitude : R; a_parallel : R; a_perpendicular : R
}.

Record Forces : Type := mkForces {
  weight : WeightForces;
  normal : R;
  friction : R;
  applied : AppliedForces;
  netParallel : R;
  angleRad : R
}.

(** The velocity read for kinetic friction is [body.state.velocity.x]
    (zero when that is zero: a plain body has no [state.vel]). *)
Definition calculate (ps : PlaneParams) (body : Body) (isMoving : bool) : Forces :=
  let angleRad := (angle ps * PI) / 180 in
  let mass := mass (params body) in
  (* Weight and its components *)
  let weight := mass * gravity ps in
  let wc := ForceCalculator.inclinedPlaneComponents weight angleRad in
  let weightParallel := ForceCalculator.parallel wc in
  let weightPerp := ForceCalculator.perpendicular wc in
  (* Applied force components *)
  let appliedAngleRad := (appliedAngle ps * PI) / 180 in
  let totalAppliedAngle := angleRad - appliedAngleRad in
  let appliedComponents := ForceCalculator.resolveForce (appliedForce ps) totalAppliedAngle in
  (* Normal force *)
  let normal := Rmax 0 (weightPerp - vy appliedComponents) in
  (* Friction force *)
  let netWithoutFriction := vx appliedComponents - weightParallel in
  let friction :=
    if negb isMoving then
      match ForceCalculator.staticFriction normal (frictionStatic ps) netWithoutFriction with
      | Some staticResult => staticResult
      | None => - sign netWithoutFriction * frictionKinetic ps * normal
      end
    else
      let vel := vx (velocity (state body)) in
      ForceCalculator.kineticFriction normal (frictionKinetic ps) vel in
  (* Net force *)
  let netParallel := - weightParallel + vx appliedComponents + friction in
  mkForces (mkWeightForces weight weightParallel weightPerp)
           normal friction
           (mkAppliedForces (appliedForce ps) (vx appliedComponents) (vy appliedComponents))
           netParallel angleRad.

End InclinedPlaneForces.

(** ** physics/InclinedPlaneBody.js

    An [InclinedPlaneBody] is a body that has [planeState]; its methods
    leave a body without it alone. *)
Module InclinedPlaneBody.

Import PhysicsBody.

Definition with_plane (b : Body) (ps : PlaneState) : Body :=
  with_planeState b (Some ps).

(** Physics step constrained to the plane; the base state is synced, the
    bounds and the trail are not touched. *)
Definition stepAlongPlane (dt netForceParallel angleRad : R) (b : Body) : Body :=
  match planeState b with
  | None => b
  | Some ps =>
      if Rleb dt 0 then b else
      let acc := netForceParallel / mass (params b) in
      let vel := velAlongPlane ps + acc * dt in
      let pos := posAlongPlane ps + vel * dt in
      let b := with_plane b (mkPlaneState pos vel acc) in
      let b := with_state b (with_velocity (with_acceleration (state b) (mkV2 acc 0))
                                           (mkV2 vel 0)) in
      with_isMoving b (Rgtb (Rabs vel) 0.001)
  end.

Section Screen.

Variable SCALE : R.

Definition getScreenPosition (planeStart : V2) (angleRad : R) (b : Body) : V2 :=
  let ps := default (mkPlaneState 0 0 0) (planeState b) in
  let distPx := Utils.toPixels SCALE (posAlongPlane ps) in
  mkV2 (vx planeStart + distPx * cos angleRad)
       (vy planeStart - distPx * sin angleRad).

(** Set position from screen coordinates (for dragging). *)
Definition setPositionFromScreen (planeStart : V2) (angleRad mouseX mouseY : R)
    (b : Body) : Body :=
  match planeState b with
  | None => b
  | Some _ =>
      let dx := mouseX - vx planeStart in
      let dy := mouseY - vy planeStart in
      let projectedDist := dx * cos angleRad - dy * sin angleRad in
      with_plane b (mkPlaneState (Utils.toMeters SCALE projectedDist) 0 0)
  end.

(** Sets [isHovered] and returns it. *)
Definition checkHoverOnPlane (p : P5) (planeStart : V2) (angleRad : R) (b : Body)
  : Body * bool :=
  let screenPos := getScreenPosition planeStart angleRad b in
  let sizePx := Utils.toPixels SCALE (size (params b)) in
  let hovered := Rleb (p5_dist (vx screenPos) (vy screenPos) (mouseX p) (mouseY p))
                      (sizePx / 2) in
  (with_isHovered b hovered, hovered).

End Screen.

Definition constrainToPlane (planeLength : R) (b : Body) : Body * bool :=
  match planeState b with
  | None => (b, false)
  | Some ps =>
      let size := size (params b) in
      let minPos := size / 2 in
      let maxPos := planeLength - size / 2 in
      if Rltb (posAlongPlane ps) minPos then
        (with_plane b (mkPlaneState minPos
                         (velAlongPlane ps * - restitution (params b))
                         (accAlongPlane ps)), true)
      else if Rgtb (posAlongPlane ps) maxPos then
        (with_plane b (mkPlaneState maxPos
                         (velAlongPlane ps * - restitution (params b))
                         (accAlongPlane ps)), true)
      else (b, false)
  end.

Definition updateTrailOnPlane (b : Body) : Body :=
  match planeState b with
  | None => b
  | Some ps =>
      let pts := points (trail b) ++ [mkV2 (posAlongPlane ps) 0] in
      let pts := if Rgtb (INR (length pts)) (maxLength (trail b)) then tail pts else pts in
      with_trail b (with_points (trail b) pts)
  end.

Definition getKineticEnergy (b : Body) : R :=
  let ps := default (mkPlaneState 0 0 0) (planeState b) in
  0.5 * mass (params b) * velAlongPlane ps * velAlongPlane ps.

Definition getPotentialEnergy (gravity angleRad : R) (b : Body) : R :=
  let ps := default (mkPlaneState 0 0 0) (planeState b) in
  let height := posAlongPlane ps * sin angleRad in
  mass (params b) * gravity * height.

(** [initialPosAlongPlane] is 0 when left out. *)
Definition reset (initialPosAlongPlane : R) (b : Body) : Body :=
  let b := with_plane b (mkPlaneState initialPosAlongPlane 0 0) in
  clearTrail (with_isMoving b false).

End InclinedPlaneBody.

(** ** physics/DragController.js *)
Module DragController.

Import PhysicsBody.

(** Bodies are objects the controller holds a reference to and mutates:
    a reference is an index into the store of bodies. *)
Definition ref := nat.

Inductive InitialPosition : Type :=
| InitialVector (v : V2)
| InitialPlane (ps : PlaneState).

Record DragState : Type := mkDragState {
  active : bool;
  targetBody : option ref;
  offset : V2;
  initialPosition : option InitialPosition
}.

Record Config : Type := mkConfig { snapBack : bool; smoothing : R }.

Record Controller : Type := mkController { dstate : DragState; config : Config }.

Definition constructor (snapBack : bool) (smoothing : R) : Controller :=
  mkController (mkDragState false None (mkV2 0 0) None) (mkConfig snapBack smoothing).

Definition isDragging (c : Controller) : bool := active (dstate c).

Definition getDraggedBody (c : Controller) : option ref := targetBody (dstate c).

Definition cancel (c : Controller) : Controller :=
  mkController (mkDragState false None (mkV2 0 0) None) (config c).

Section Screen.

Variable SCALE : R.
Variable CANVAS_HEIGHT : R.

(** [startDrag] on a body of the store; every [PhysicsBody] has a position,
    a velocity and [toScreenPosition]. *)
Definition startDrag (body : ref) (mouseX mouseY : R)
    (store : list Body) (c : Controller) : list Body * Controller :=
  match store !! body with
  | None => (store, c)
  | Some b =>
      (* Store initial position for snap back *)
      let initial :=
        if snapBack (config c) then Some (InitialVector (position (state b)))
        else initialPosition (dstate c) in
      (* Offset from mouse to body center *)
      let screenPos := toScreenPosition SCALE CANVAS_HEIGHT b in
      let offset := mkV2 (vx screenPos - mouseX) (vy screenPos - mouseY) in
      (* Zero out velocity when starting drag *)
      let b := with_state b (with_velocity (state b) (mkV2 0 0)) in
      let b :=
        match planeState b with
        | Some ps => with_planeState b
                       (Some (mkPlaneState (posAlongPlane ps) 0 (accAlongPlane ps)))
        | None => b
        end in
      (<[body := b]> store,
       mkController (mkDragState true (Some body) offset initial) (config c))
  end.

(** The loop of [handlePress]: the hit test is commented out in the source,
    so [isHit] keeps its initial value. *)
Fixpoint handlePress_loop (p : P5) (bodies : list ref)
    (store : list Body) (c : Controller) : bool * (list Body * Controller) :=
  match bodies with
  | [] => (false, (store, c))
  | body :: rest =>
      let isHit := false in
      if isHit then (true, startDrag body (mouseX p) (mouseY p) store c)
      else handlePress_loop p rest store c
  end.

(** [bodies] is an array of bodies, or one body, which is then wrapped. *)
Definition handlePress (p : P5) (bodies : list ref + ref)
    (store : list Body) (c : Controller) : bool * (list Body * Controller) :=
  let bodies := match bodies with inl bs => bs | inr b => [b] end in
  handlePress_loop p bodies store c.

(** [handleDrag]: the dragged body follows the mouse, kept at the offset
    taken at the press.  [customUpdate], when given, is called on the body
    instead.  The controller itself is not changed. *)
Definition handleDrag (p : P5) (customUpdate : option (Body -> R -> R -> Body))
    (store : list Body) (c : Controller) : list Body :=
  if negb (active (dstate c)) then store else
  match targetBody (dstate c) with
  | None => store
  | Some body =>
      match store !! body with
      | None => store
      | Some b =>
          (* target position in pixels *)
          let targetXPixel := mouseX p + vx (offset (dstate c)) in
          let targetYPixel := mouseY p + vy (offset (dstate c)) in
          match customUpdate with
          | Some update => <[body := update b (mouseX p) (mouseY p)]> store
          | None =>
              (* converted to meters before it reaches the physics *)
              let targetXMeters := Utils.toMeters SCALE targetXPixel in
              let targetYMeters := Utils.screenYToPhysicsY SCALE CANVAS_HEIGHT targetYPixel in
              let pos := position (state b) in
              let pos' :=
                if Rgtb (smoothing (config c)) 0 then
                  mkV2 (vx pos + (targetXMeters - vx pos) * smoothing (config c))
                       (vy pos + (targetYMeters - vy pos) * smoothing (config c))
                else mkV2 targetXMeters targetYMeters in
              <[body := with_state b (with_position (state b) pos')]> store
          end
      end
  end.

(** The [x] and [y] read off the stored initial position: a copied plane
    state has neither, and [set] then takes 0 for both. *)
Definition initial_xy (ip : InitialPosition) : V2 :=
  match ip with
  | InitialVector v => v
  | InitialPlane _ => mkV2 0 0
  end.

(** [handleRelease]: snap back when configured, call [onRelease] on the
    body when given, and reset the controller.  (An active controller has
    a dragged body; the case without one is there for totality.) *)
Definition handleRelease (onRelease : option (Body -> Body))
    (store : list Body) (c : Controller) : list Body * Controller :=
  if negb (active (dstate c)) then (store, c) else
  let store :=
    match targetBody (dstate c) with
    | None => store
    | Some body =>
        match store !! body with
        | None => store
        | Some b =>
            let b :=
              match snapBack (config c), initialPosition (dstate c) with
              | true, Some ip =>
                  with_state b (with_position (state b) (initial_xy ip))
              | _, _ => b
              end in
            let b := match onRelease with Some f => f b | None => b end in
            <[body := b]> store
        end
    end in
  (store, mkController (mkDragState false None (mkV2 0 0) None) (config c)).

(** [InclinedPlaneDragController]: [planeRef.current] gives the start of
    the plane and [angleGetter()] its angle. *)
Definition plane_handlePress (planeStart : V2) (angleRad : R) (p : P5) (body : ref)
    (store : list Body) (c : Controller) : bool * (list Body * Controller) :=
  match store !! body with
  | None => (false, (store, c))
  | Some b =>
      match planeState b with
      | None => (false, (store, c))           (* no [checkHoverOnPlane] *)
      | Some _ =>
          let (b', isHit) :=
            InclinedPlaneBody.checkHoverOnPlane SCALE p planeStart angleRad b in
          let store := <[body := b']> store in
          if isHit then (true, startDrag body (mouseX p) (mouseY p) store c)
          else (false, (store, c))
      end
  end.

Definition plane_handleDrag (planeStart : V2) (angleRad : R) (p : P5)
    (store : list Body) (c : Controller) : list Body :=
  if negb (active (dstate c)) then store else
  match targetBody (dstate c) with
  | None => store
  | Some body =>
      match store !! body with
      | None => store
      | Some b =>
          <[body := InclinedPlaneBody.setPositionFromScreen SCALE planeStart angleRad
                      (mouseX p) (mouseY p) b]> store
      end
  end.

End Screen.

End DragController.

(** ** physics/Spring.ts *)
Module Spring.

Import PhysicsBody.

Record Spring : Type := mkSpring {
  anchor : V2;          (* physics coordinates *)
  restLength : R;       (* meters *)
  k : R                 (* N/m *)
}.

(** [p.constrain(n, low, high)] *)
Definition constrain (n low high : R) : R := Rmax (Rmin n high) low.

(** [setMag(len)] is [normalize().mult(len)]. *)
Definition setMag (v : V2) (len : R) : V2 := Vector.mult (Vector.normalize v) len.

Definition getLength (s : Spring) (body : Body) : R :=
  Vector.dist (anchor s) (position (state body)).

Definition getDisplacement (s : Spring) (body : Body) : R :=
  getLength s body - restLength s.

Definition getElasticPotentialEnergy (s : Spring) (body : Body) : R :=
  let displacement := getDisplacement s body in
  0.5 * k s * displacement * displacement.

Definition getSpringForce (s : Spring) (body : Body) : R :=
  let displacement := getDisplacement s body in
  - k s * displacement.

(** Apply the spring force to the body. *)
Definition connect (s : Spring) (body : Body) : Body :=
  let force := Vector.sub (anchor s) (position (state body)) in
  let currentLength := Vector.mag force in
  if Rltb currentLength 0.0001 then body else
  let displacement := currentLength - restLength s in
  let springForceMag := - k s * displacement in
  let force := Vector.mult (Vector.normalize force) springForceMag in
  applyForce force body.

(** Constrain the distance between anchor and body. *)
Definition constrainLength (s : Spring) (min max : R) (body : Body) : Body :=
  let direction := Vector.sub (position (state body)) (anchor s) in
  let d := Vector.mag direction in
  if Rltb d min || Rgtb d max then
    let targetLen := constrain d min max in
    let direction := setMag direction targetLen in
    let st := with_position (state body) (Vector.add (anchor s) direction) in
    (* damp the velocity *)
    with_state body (with_velocity st (Vector.mult (velocity st) 0.5))
  else body.

Section Screen.

Variable SCALE : R.
Variable CANVAS_HEIGHT : R.

(** [isScreen] is [false] when left out. *)
Definition setAnchor (x y : R) (isScreen : bool) (s : Spring) : Spring :=
  if isScreen then
    mkSpring (mkV2 (Utils.toMeters SCALE x)
                   (Utils.screenYToPhysicsY SCALE CANVAS_HEIGHT y))
             (restLength s) (k s)
  else mkSpring (mkV2 x y) (restLength s) (k s).

End Screen.

End Spring.

(** ** The Test page: collisions between bodies, once per frame *)
Module TestPage.

Import PhysicsBody.

Definition minDist (body1 body2 : Body) : R :=
  (size (params body1) + size (params body2)) / 2.

Definition normal (body1 body2 : Body) : V2 :=
  Vector.normalize (Vector.sub (position (state body2)) (position (state body1))).

Definition velAlongNormal (body1 body2 : Body) : R :=
  let relVel := Vector.sub (velocity (state body2)) (velocity (state body1)) in
  Vector.dot relVel (normal body1 body2).

Definition impulse (body1 body2 : Body) : R :=
  let restitution := (restitution (params body1) + restitution (params body2)) / 2 in
  (- (1 + restitution) * velAlongNormal body1 body2) /
  (1 / mass (params body1) + 1 / mass (params body2)).

(** The two vectors handed to [applyImpulse]. *)
Definition impulseOn1 (body1 body2 : Body) : V2 :=
  Vector.mult (normal body1 body2) (- impulse body1 body2).

Definition impulseOn2 (body1 body2 : Body) : V2 :=
  Vector.mult (normal body1 body2) (impulse body1 body2).

(** The body of the inner loop, for one pair. *)
Definition resolvePair (body1 body2 : Body) : Body * Body :=
  let dist := Vector.dist (position (state body1)) (position (state body2)) in
  if Rltb dist (minDist body1 body2) then
    let n := normal body1 body2 in
    let j := impulse body1 body2 in
    let van := velAlongNormal body1 body2 in
    (* Separate bodies *)
    let overlap := minDist body1 body2 - dist in
    let sep1 := with_state body1 (with_position (state body1)
                  (Vector.sub (position (state body1)) (Vector.mult n (overlap / 2)))) in
    let sep2 := with_state body2 (with_position (state body2)
                  (Vector.add (position (state body2)) (Vector.mult n (overlap / 2)))) in
    (* Don't resolve if velocities are separating *)
    if Rltb van 0 then (sep1, sep2)
    else (applyImpulse (Vector.mult n (- j)) sep1, applyImpulse (Vector.mult n j) sep2)
  else (body1, body2).

Definition collideAt (i j : nat) (bodies : list Body) : list Body :=
  match bodies !! i, bodies !! j with
  | Some body1, Some body2 =>
      let (body1', body2') := resolvePair body1 body2 in
      <[j := body2']> (<[i := body1']> bodies)
  | _, _ => bodies
  end.

(** for i in 0..n-1, for j in i+1..n-1 *)
Definition collisions (bodies : list Body) : list Body :=
  let n := length bodies in
  foldl (fun bs i => foldl (fun bs j => collideAt i j bs) bs (seq (S i) (n - S i)))
        bodies (seq 0 n).

(** The inputs of the page that [p.draw] reads. *)
Record Inputs : Type := mkInputs {
  input_gravity : R;
  input_trailEnabled : bool;
  input_restitution : R;
  input_frictionMu : R
}.

Section Frame.

Variable SCALE : R.
Variable CANVAS_HEIGHT : R.

(** What [p.draw] does to one body before the collisions (drawing and the
    info panel left out); [p.draw] has returned already when [dt <= 0]. *)
Definition updateBody (p : P5) (inputs : Inputs) (dt : R) (body : Body) : Body :=
  (* Sync parameters *)
  let body := updateParams (mkParamsPatch None None None None
                              (Some (input_restitution inputs))) body in
  let body := with_trail body (with_enabled (trail body) (input_trailEnabled inputs)) in
  (* Apply gravity *)
  let gravityForce := ForceCalculator.gravity (mass (params body))
                        (Some (input_gravity inputs)) None in
  let body := applyForce (createVector (vx gravityForce) (vy gravityForce)) body in
  (* Ground friction (simplified) *)
  let bottomM := Utils.toMeters SCALE (height p) in
  let onGround := Rgeb (vy (position (state body)) + size (params body) / 2)
                       (bottomM - 0.01) in
  let body :=
    if onGround && Rgtb (Vector.mag (velocity (state body))) 0.01
       && Rgtb (input_frictionMu inputs) 0 then
      let friction := ForceCalculator.friction
                        (mass (params body) * input_gravity inputs)
                        (input_frictionMu inputs) (input_frictionMu inputs * 0.8)
                        (vx (velocity (state body))) 0 in
      applyForce (createVector friction 0) body
    else body in
  (* Physics step *)
  let body := step dt body in
  (* Constrain to bounds *)
  let radius := size (params body) / 2 in
  let body := fst (constrainToBounds radius (Utils.toMeters SCALE (width p) - radius)
                                     radius (Utils.toMeters SCALE (height p) - radius)
                                     body) in
  fst (checkHover SCALE p (toScreenPosition SCALE CANVAS_HEIGHT body) body).

(** One frame: every body is updated, then the collisions are resolved. *)
Definition frame (p : P5) (inputs : Inputs) (dt : R) (bodies : list Body) : list Body :=
  if Rleb dt 0 then bodies
  else collisions (map (updateBody p inputs dt) bodies).

End Frame.

End TestPage.

(** ** The Pendulum page: PendulumBody *)
Module Pendulum.

Import PhysicsBody.

Record PendulumBody : Type := mkPendulumBody {
  body : Body;
  anchor : V2;
  length : R;
  angularVel : R
}.

(** Set angle directly (for dragging). *)
Definition setAngle (angleRad : R) (pb : PendulumBody) : PendulumBody :=
  let st := with_position (state (body pb))
              (mkV2 (vx (anchor pb) + length pb * sin angleRad)
                    (vy (anchor pb) + length pb * cos angleRad)) in
  mkPendulumBody (with_state (body pb) (with_velocity st (mkV2 0 0)))
                 (anchor pb) (length pb) 0.

(** PE relative to the lowest point. *)
Definition getPotentialEnergy (gravity : R) (pb : PendulumBody) : R :=
  let lowestY := vy (anchor pb) + length pb in
  mass (params (body pb)) * gravity * (lowestY - vy (position (state (body pb)))).

Section Angle.

(** [Math.atan2] *)
Variable atan2 : R -> R -> R.

(** Current angle from the vertical. *)
Definition getAngle (pb : PendulumBody) : R :=
  let dx := vx (position (state (body pb))) - vx (anchor pb) in
  let dy := vy (position (state (body pb))) - vy (anchor pb) in
  atan2 dx dy.

Definition stepPendulum (dt gravity damping : R) (pb : PendulumBody) : PendulumBody :=
  if Rleb dt 0 then pb else
  let dx := vx (position (state (body pb))) - vx (anchor pb) in
  let dy := vy (position (state (body pb))) - vy (anchor pb) in
  let angle := atan2 dx dy in
  (* angular acceleration *)
  let angularAcc := - (gravity / length pb) * sin angle - damping * angularVel pb in
  let angularVel' := angularVel pb + angularAcc * dt in
  let newAngle := angle + angularVel' * dt in
  (* position constrained to the circular path *)
  let st := with_position (state (body pb))
              (mkV2 (vx (anchor pb) + length pb * sin newAngle)
                    (vy (anchor pb) + length pb * cos newAngle)) in
  (* linear velocity, tangent to the path *)
  let speed := angularVel' * length pb in
  let st := with_velocity st (mkV2 (speed * cos newAngle) (- speed * sin newAngle)) in
  let b := with_isMoving (with_state (body pb) st) (Rgtb (Rabs angularVel') 0.001) in
  let b := if enabled (trail b) then updateTrail b else b in
  mkPendulumBody b (anchor pb) (length pb) angularVel'.

Record PendulumForces : Type := mkPendulumForces {
  weightMagnitude : R;
  tensionMagnitude : R;
  weightTangent : R;
  weightRadial : R;
  forceAngle : R
}.

Definition calculateForces (gravity : R) (pb : PendulumBody) : PendulumForces :=
  let angle := getAngle pb in
  let weight := mass (params (body pb)) * gravity in
  let weightTangent := - weight * sin angle in
  let weightRadial := weight * cos angle in
  let speed := angularVel pb * length pb in
  let centripetal := (mass (params (body pb)) * speed * speed) / length pb in
  let tension := weightRadial + centripetal in
  mkPendulumForces weight tension weightTangent weightRadial angle.

End Angle.

End Pendulum.

(** ** The ParabolicMotion page: the predicted path *)
Module ParabolicMotion.

Definition TRAJECTORY_STEPS : nat := 96.

(** What [buildTrajectoryPoints] reads of the launch analytics. *)
Record Analytics : Type := mkAnalytics { flightTime : R; vx0 : R; vy0 : R }.

Section Path.

Variable SCALE : R.

(** The loop from step [i], with [n] steps left to try: it stops at the
    first point below the ground line. *)
Fixpoint trajectoryLoop (n i : nat) (dt : R) (a : Analytics) (startPos : V2)
    (gravity ground : R) : list V2 :=
  match n with
  | O => []
  | S n' =>
      let t := dt * INR i in
      let x := vx startPos + vx0 a * t in
      let y := vy startPos - vy0 a * t + 0.5 * gravity * t * t in
      if Rgtb y ground then []
      else mkV2 (Utils.toPixels SCALE x) (Utils.toPixels SCALE y)
             :: trajectoryLoop n' (S i) dt a startPos gravity ground
  end.

Definition buildTrajectoryPoints (p : P5) (analytics : option Analytics)
    (startPos : option V2) (gravity radius : R) : list V2 :=
  match analytics, startPos with
  | Some a, Some sp =>
      if Rleb (flightTime a) 0 then []
      else
        let dt := flightTime a / INR TRAJECTORY_STEPS in
        let canvasHeightMeters := Utils.toMeters SCALE (height p) in
        let ground := canvasHeightMeters - radius in
        trajectoryLoop (S TRAJECTORY_STEPS) 0 dt a sp gravity ground
  | _, _ => []
  end.

End Path.

End ParabolicMotion.

(** ** Sample data and measures for the properties below *)

Import PhysicsBody TestPage DragController.

(** A body at rest at the origin, pushed to the right. *)
Definition pushedBody : Body :=
  mkBody (mkParams 1 1 "#3b82f6" "circle" 1)
         (mkState (mkV2 0 0) (mkV2 0 0) (mkV2 1 0) 0 0 0)
         false false
         (mkTrail false [] 100 "#3b82f6" 100)
         (CircleBounds (mkV2 0 0) (1 / 2))
         None.

(** A body whose trail is enabled and full: two points, cap two. *)
Definition trailingBody : Body :=
  mkBody (mkParams 1 1 "#3b82f6" "circle" 1)
         (mkState (mkV2 5 5) (mkV2 1 0) (mkV2 0 0) 0 0 0)
         true false
         (mkTrail true [mkV2 3 5; mkV2 4 5] 2 "#3b82f6" 100)
         (CircleBounds (mkV2 5 5) (1 / 2))
         None.

(** A store of three vectors: a position, a velocity, an acceleration. *)
Definition threeVectors : VStore.Heap :=
  VStore.mkHeap
    (fun l => match l with
              | O => mkV2 0 10
              | S O => mkV2 2 0
              | _ => mkV2 0 (-10)
              end)
    3%nat.

(** Two overlapping balls, the second moving off to the right. *)
Definition ballA : Body :=
  mkBody (mkParams 1 2 "#3b82f6" "circle" 1)
         (mkState (mkV2 0 0) (mkV2 0 0) (mkV2 0 0) 0 0 0)
         false false
         (mkTrail false [] 100 "#3b82f6" 100)
         (CircleBounds (mkV2 0 0) 1)
         None.

Definition ballB : Body :=
  mkBody (mkParams 2 2 "#3b82f6" "circle" 1)
         (mkState (mkV2 1 0) (mkV2 1 0) (mkV2 0 0) 0 0 0)
         true false
         (mkTrail false [] 100 "#3b82f6" 100)
         (CircleBounds (mkV2 1 0) 1)
         None.

(** A circle of diameter 1 m at (2, 3), and a press on its centre, on a
    canvas 600 px high at 100 px per meter. *)
Definition pressedBall : Body :=
  mkBody (mkParams 1 1 "#3b82f6" "circle" 1)
         (mkState (mkV2 2 3) (mkV2 4 0) (mkV2 0 0) 0 0 0)
         true false
         (mkTrail false [] 100 "#3b82f6" 100)
         (CircleBounds (mkV2 2 3) (1 / 2))
         None.

Definition pressAtCentre : P5 := mkP5 200 300 800 600.

Definition totalMomentum (bodies : list Body) : V2 :=
  foldr (fun b acc => Vector.add (getMomentum b) acc) (mkV2 0 0) bodies.

Definition massive (b : Body) : Prop := mass (params b) <> 0.

(** A pendulum 2 m long anchored at (3, 1), the bob at angle 0. *)
Definition hangingPendulum : Pendulum.PendulumBody :=
  Pendulum.mkPendulumBody
    (with_state pushedBody (mkState (mkV2 3 3) (mkV2 0 0) (mkV2 0 0) 0 0 0))
    (mkV2 3 1) 2 0.5.

(** * Part II: properties *)

(** ** Comparisons *)

Lemma Rltb_true (a b : R) : Rltb a b = true <-> a < b.
Proof. unfold Rltb; destruct (Rlt_dec a b); split; intros; (lra || congruence). Qed.

Lemma Rltb_false (a b : R) : Rltb a b = false <-> b <= a.
Proof. unfold Rltb; destruct (Rlt_dec a b); split; intros; (lra || congruence). Qed.

Lemma Rleb_true (a b : R) : Rleb a b = true <-> a <= b.
Proof. unfold Rleb; destruct (Rle_dec a b); split; intros; (lra || congruence). Qed.

Lemma Rleb_false (a b : R) : Rleb a b = false <-> b < a.
Proof. unfold Rleb; destruct (Rle_dec a b); split; intros; (lra || congruence). Qed.

Lemma Reqb_true (a b : R) : Reqb a b = true <-> a = b.
Proof. unfold Reqb; destruct (Req_dec_T a b); split; intros; (lra || congruence). Qed.

Lemma Reqb_false (a b : R) : Reqb a b = false <-> a <> b.
Proof. unfold Reqb; destruct (Req_dec_T a b); split; intros; (lra || congruence). Qed.

(** Decide the first comparison of the goal, keeping the fact it rests on. *)
Ltac cmp_goal :=
  match goal with
  | |- context [Rltb ?a ?b] =>
      let H := fresh "Hcmp" in
      destruct (Rltb a b) eqn:H; [apply Rltb_true in H | apply Rltb_false in H]
  | |- context [Rleb ?a ?b] =>
      let H := fresh "Hcmp" in
      destruct (Rleb a b) eqn:H; [apply Rleb_true in H | apply Rleb_false in H]
  end.

Lemma V2_eq (a b : V2) : vx a = vx b -> vy a = vy b -> a = b.
Proof. destruct a, b; simpl; intros -> ->; reflexivity. Qed.

(** ** Unit and canvas conversions *)

Section ConversionFacts.

Variables SCALE CANVAS_HEIGHT : R.
Hypothesis SCALE_pos : 0 < SCALE.

Lemma toMeters_toPixels (m : R) :
  Utils.toMeters SCALE (Utils.toPixels SCALE m) = m.
Proof. unfold Utils.toMeters, Utils.toPixels. field. lra. Qed.

Lemma toPixels_toMeters (px : R) :
  Utils.toPixels SCALE (Utils.toMeters SCALE px) = px.
Proof. unfold Utils.toMeters, Utils.toPixels. field. lra. Qed.

Lemma screenY_physicsY (y : R) :
  Utils.screenYToPhysicsY SCALE CANVAS_HEIGHT
    (Utils.physicsYToScreenY SCALE CANVAS_HEIGHT y) = y.
Proof. unfold Utils.screenYToPhysicsY, Utils.physicsYToScreenY. field. lra. Qed.

Lemma physicsY_screenY (sy : R) :
  Utils.physicsYToScreenY SCALE CANVAS_HEIGHT
    (Utils.screenYToPhysicsY SCALE CANVAS_HEIGHT sy) = sy.
Proof. unfold Utils.screenYToPhysicsY, Utils.physicsYToScreenY. field. lra. Qed.

End ConversionFacts.

(** C6: for a positive scale and any canvas height the conversions undo
    each other: pixels of meters back to meters gives the length, and the
    screen Y of a physics height back to physics gives the height. *)
Theorem conversions_inverse (SCALE CANVAS_HEIGHT : R) :
  0 < SCALE ->
  (forall m : R, Utils.toMeters SCALE (Utils.toPixels SCALE m) = m) /\
  (forall y : R,
     Utils.screenYToPhysicsY SCALE CANVAS_HEIGHT
       (Utils.physicsYToScreenY SCALE CANVAS_HEIGHT y) = y).
Proof.
  intros Hs; split; intros.
  - apply toMeters_toPixels; assumption.
  - apply screenY_physicsY; assumption.
Qed.

Lemma conversions_inverse_witness :
  Utils.toMeters 100 (Utils.toPixels 100 2) = 2 /\
  Utils.screenYToPhysicsY 100 600 (Utils.physicsYToScreenY 100 600 3) = 3.
Proof.
  destruct (conversions_inverse 100 600 ltac:(lra)) as [Hm Hy].
  split; [apply Hm | apply Hy].
Defined.

(** ** Forces *)

(** C7: with no custom direction the weight is the vector (0, -m*g), of
    magnitude |m*g|; the spring force is Hooke's law -k*x. *)
Theorem gravity_spring_textbook (m g x k : R) :
  ForceCalculator.gravity m (Some g) None = mkV2 0 (- (m * g)) /\
  Vector.mag (ForceCalculator.gravity m (Some g) None) = Rabs (m * g) /\
  ForceCalculator.spring x k = - k * x.
Proof.
  unfold ForceCalculator.gravity, ForceCalculator.spring, Vector.mag, Vector.magSq.
  simpl. repeat split.
  replace (0 * 0 + - (m * g) * - (m * g)) with ((m * g)²) by (unfold Rsqr; ring).
  apply sqrt_Rsqr_abs.
Qed.

(** ** PhysicsBody: stepping *)

Lemma updateTrail_state (b : Body) : state (updateTrail b) = state b.
Proof. reflexivity. Qed.

Lemma updateTrail_params (b : Body) : params (updateTrail b) = params b.
Proof. reflexivity. Qed.

(** What a step with [dt > 0] leaves in [state]. *)
Lemma step_state (dt : R) (b : Body) :
  0 < dt ->
  state (step dt b) =
    let v := Vector.add (velocity (state b)) (Vector.mult (acceleration (state b)) dt) in
    let w := angularVelocity (state b) + angularAcceleration (state b) * dt in
    mkState (Vector.add (position (state b)) (Vector.mult v dt)) v (mkV2 0 0)
            (rotation (state b) + w * dt) w 0.
Proof.
  intros Hdt. unfold step.
  cmp_goal; [lra|].
  cbv zeta.
  match goal with |- context [if ?c then _ else _] => destruct c end;
    reflexivity.
Qed.

(** C1, as stated, fails: after one step of [dt = 1] the pushed body has
    moved, although its old velocity was zero. *)
Lemma step_explicit_euler_counterexample :
  0 < 1 /\
  position (state (step 1 pushedBody)) <>
    Vector.add (position (state pushedBody))
               (Vector.mult (velocity (state pushedBody)) 1).
Proof.
  split; [lra|].
  rewrite step_state by lra. simpl.
  intros H. apply (f_equal vx) in H. simpl in H. lra.
Qed.

(** C1, amended: for [dt > 0] a step adds acceleration*dt to the velocity,
    then adds the new velocity*dt to the position (semi-implicit Euler),
    and resets the linear acceleration to zero. *)
Theorem step_semi_implicit_euler (b : Body) (dt : R) :
  0 < dt ->
  velocity (state (step dt b)) =
    Vector.add (velocity (state b)) (Vector.mult (acceleration (state b)) dt) /\
  position (state (step dt b)) =
    Vector.add (position (state b)) (Vector.mult (velocity (state (step dt b))) dt) /\
  acceleration (state (step dt b)) = mkV2 0 0.
Proof.
  intros Hdt. rewrite step_state by assumption. simpl. repeat split.
Qed.

Lemma step_semi_implicit_euler_witness :
  velocity (state (step 1 pushedBody)) =
    Vector.add (velocity (state pushedBody))
               (Vector.mult (acceleration (state pushedBody)) 1) /\
  position (state (step 1 pushedBody)) =
    Vector.add (position (state pushedBody))
               (Vector.mult (velocity (state (step 1 pushedBody))) 1) /\
  acceleration (state (step 1 pushedBody)) = mkV2 0 0.
Proof. apply (step_semi_implicit_euler pushedBody 1). lra. Defined.

(** C8: with [dt <= 0] both [step] and [stepVerlet] return at once: the
    body is the same in every field, and [stepVerlet] returns nothing. *)
Theorem step_nonpositive_dt_noop (b : Body) (dt : R) (previousPosition : option V2) :
  dt <= 0 ->
  step dt b = b /\ stepVerlet dt previousPosition b = (b, None).
Proof.
  intros Hdt. unfold step, stepVerlet.
  cmp_goal; [split; reflexivity | lra].
Qed.

Lemma step_nonpositive_dt_noop_witness :
  step 0 pushedBody = pushedBody /\
  stepVerlet (-1) (Some (mkV2 2 3)) pushedBody = (pushedBody, None).
Proof.
  split.
  - apply (step_nonpositive_dt_noop pushedBody 0 None). lra.
  - apply (step_nonpositive_dt_noop pushedBody (-1) (Some (mkV2 2 3))). lra.
Defined.

(** ** PhysicsBody: boundaries *)

(** C9: with [minX <= maxX] and [minY <= maxY], [constrainToBounds] leaves
    the position inside the bounds, returns [true] exactly when a
    coordinate was out of them (and so clamped), and multiplies the
    velocity component of each clamped axis by minus the restitution. *)
Theorem constrainToBounds_clamps (b : Body) (minX maxX minY maxY : R) :
  minX <= maxX -> minY <= maxY ->
  let x := vx (position (state b)) in
  let y := vy (position (state b)) in
  let e := restitution (params b) in
  let b' := fst (constrainToBounds minX maxX minY maxY b) in
  let collided := snd (constrainToBounds minX maxX minY maxY b) in
  (minX <= vx (position (state b')) <= maxX) /\
  (minY <= vy (position (state b')) <= maxY) /\
  (collided = true <-> (x < minX \/ maxX < x) \/ (y < minY \/ maxY < y)) /\
  (x < minX \/ maxX < x ->
     vx (velocity (state b')) = vx (velocity (state b)) * - e) /\
  (y < minY \/ maxY < y ->
     vy (velocity (state b')) = vy (velocity (state b)) * - e).
Proof.
  intros HX HY. unfold constrainToBounds, Rgtb. cbv zeta.
  destruct (Rltb (vx (position (state b))) minX) eqn:Hx1;
    [apply Rltb_true in Hx1 | apply Rltb_false in Hx1;
     destruct (Rltb maxX (vx (position (state b)))) eqn:Hx2;
       [apply Rltb_true in Hx2 | apply Rltb_false in Hx2]];
  simpl;
  (destruct (Rltb (vy (position (state b))) minY) eqn:Hy1;
    [apply Rltb_true in Hy1 | apply Rltb_false in Hy1;
     destruct (Rltb maxY (vy (position (state b)))) eqn:Hy2;
       [apply Rltb_true in Hy2 | apply Rltb_false in Hy2]]);
  simpl; repeat split; intros; try lra; try reflexivity;
  try (left; lra); try (right; lra);
  try (left; left; lra); try (left; right; lra);
  try (right; left; lra); try (right; right; lra);
  try (exfalso; lra).
Qed.

(** The trailing body, at (5, 5) with velocity (1, 0), is out of
    [1,4] x [1,3] on both axes: it is put at (4, 3) and both velocity
    components are multiplied by -1. *)
Lemma constrainToBounds_clamps_witness :
  (1 <= 4 /\ 1 <= 3) /\
  let b' := fst (constrainToBounds 1 4 1 3 trailingBody) in
  (1 <= vx (position (state b')) <= 4) /\
  (1 <= vy (position (state b')) <= 3) /\
  snd (constrainToBounds 1 4 1 3 trailingBody) = true /\
  vx (velocity (state b')) = 1 * - 1 /\
  vy (velocity (state b')) = 0 * - 1.
Proof.
  split; [lra|].
  destruct (constrainToBounds_clamps trailingBody 1 4 1 3 ltac:(lra) ltac:(lra))
    as (Hx & Hy & Hc & Hvx & Hvy).
  cbv zeta in *.
  change (vx (position (state trailingBody))) with 5 in *.
  change (vy (position (state trailingBody))) with 5 in *.
  change (vx (velocity (state trailingBody))) with 1 in *.
  change (vy (velocity (state trailingBody))) with 0 in *.
  change (restitution (params trailingBody)) with 1 in *.
  split; [exact Hx|]. split; [exact Hy|].
  split; [apply Hc; left; right; lra|].
  split; [apply Hvx; right; lra | apply Hvy; right; lra].
Defined.

(** ** PhysicsBody: the trail *)

Lemma length_tail_le {A} (l : list A) : (length (tail l) = length l - 1)%nat.
Proof. destruct l; simpl; lia. Qed.

Lemma updateTrail_points (b : Body) :
  points (trail (updateTrail b)) =
    let pushed := points (trail b) ++ [position (state b)] in
    if Rgtb (INR (length pushed)) (maxLength (trail b)) then tail pushed else pushed.
Proof. reflexivity. Qed.

Lemma updateTrail_maxLength (b : Body) :
  maxLength (trail (updateTrail b)) = maxLength (trail b).
Proof. reflexivity. Qed.

Lemma updateTrail_bounded (b : Body) :
  INR (length (points (trail b))) <= maxLength (trail b) ->
  INR (length (points (trail (updateTrail b)))) <= maxLength (trail (updateTrail b)).
Proof.
  intros Hinv. rewrite updateTrail_points, updateTrail_maxLength. cbv zeta.
  unfold Rgtb. cmp_goal.
  - rewrite length_tail_le, length_app. simpl.
    replace (length (points (trail b)) + 1 - 1)%nat
      with (length (points (trail b))) by lia.
    exact Hinv.
  - exact Hcmp.
Qed.

Lemma step_trail (dt : R) (b : Body) :
  trail (step dt b) = trail b \/
  (enabled (trail b) = true /\
   exists b0, state b0 = state (step dt b) /\ trail b0 = trail b /\
              trail (step dt b) = trail (updateTrail b0)).
Proof.
  unfold step. cmp_goal; [left; reflexivity|]. cbv zeta.
  match goal with |- context [if enabled (trail ?x) then _ else _] =>
    change (enabled (trail x)) with (enabled (trail b));
    destruct (enabled (trail b)) eqn:He
  end.
  - right. split; [reflexivity|]. eexists. split; [|split; [|reflexivity]]; reflexivity.
  - left. reflexivity.
Qed.

(** C10: the trail stays within its cap.  [updateTrail] appends the
    current position and drops the oldest point when the cap is exceeded;
    a trail of at most [maxLength] points has at most [maxLength] points
    after [updateTrail], and after a [step] whatever [dt] is and whether or
    not the trail is enabled. *)
Theorem trail_bounded (b : Body) :
  INR (length (points (trail b))) <= maxLength (trail b) ->
  (points (trail (updateTrail b)) =
     let pushed := points (trail b) ++ [position (state b)] in
     if Rgtb (INR (length pushed)) (maxLength (trail b)) then tail pushed else pushed) /\
  INR (length (points (trail (updateTrail b)))) <= maxLength (trail (updateTrail b)) /\
  (forall dt : R,
     INR (length (points (trail (step dt b)))) <= maxLength (trail (step dt b))).
Proof.
  intros Hinv. split; [apply updateTrail_points|].
  split; [apply updateTrail_bounded; exact Hinv|].
  intros dt. destruct (step_trail dt b) as [-> | (_ & b0 & _ & Ht & ->)].
  - exact Hinv.
  - apply updateTrail_bounded. rewrite Ht. exact Hinv.
Qed.

Lemma trail_bounded_witness :
  INR (length (points (trail trailingBody))) <= maxLength (trail trailingBody) /\
  points (trail (updateTrail trailingBody)) =
    (let pushed := points (trail trailingBody) ++ [position (state trailingBody)] in
     if Rgtb (INR (length pushed)) (maxLength (trail trailingBody))
     then tail pushed else pushed) /\
  INR (length (points (trail (updateTrail trailingBody)))) <=
    maxLength (trail (updateTrail trailingBody)) /\
  (forall dt : R,
     INR (length (points (trail (step dt trailingBody)))) <=
       maxLength (trail (step dt trailingBody))).
Proof.
  assert (H0 : INR (length (points (trail trailingBody))) <= maxLength (trail trailingBody))
    by (simpl; lra).
  split; [exact H0 | exact (trail_bounded trailingBody H0)].
Defined.

(** On the full trail the oldest point goes and the position comes in. *)
Example updateTrail_full :
  points (trail (updateTrail trailingBody)) = [mkV2 4 5; mkV2 5 5].
Proof.
  rewrite updateTrail_points. cbv zeta. simpl length. unfold Rgtb.
  cmp_goal; [reflexivity | simpl in Hcmp; lra].
Qed.

(** ** Utils: velocity Verlet on the store *)

Section StoreFacts.

Import VStore.

Lemma copy_spec (l : loc) (hp : Heap) :
  fst (copy l hp) = next hp /\
  next (snd (copy l hp)) = S (next hp) /\
  cells (snd (copy l hp)) (next hp) = cells hp l /\
  (forall l', l' <> next hp -> cells (snd (copy l hp)) l' = cells hp l').
Proof.
  unfold copy; simpl. rewrite Nat.eqb_refl. repeat split.
  intros l' Hl. apply Nat.eqb_neq in Hl. rewrite Hl. reflexivity.
Qed.

Lemma mult_spec (l : loc) (n : R) (hp : Heap) :
  fst (mult l n hp) = l /\
  next (snd (mult l n hp)) = next hp /\
  cells (snd (mult l n hp)) l = Vector.mult (cells hp l) n /\
  (forall l', l' <> l -> cells (snd (mult l n hp)) l' = cells hp l').
Proof.
  unfold mult, write; simpl. rewrite Nat.eqb_refl. repeat split.
  intros l' Hl. apply Nat.eqb_neq in Hl. rewrite Hl. reflexivity.
Qed.

Lemma add_spec (l l2 : loc) (hp : Heap) :
  fst (add l l2 hp) = l /\
  next (snd (add l l2 hp)) = next hp /\
  cells (snd (add l l2 hp)) l = Vector.add (cells hp l) (cells hp l2) /\
  (forall l', l' <> l -> cells (snd (add l l2 hp)) l' = cells hp l').
Proof.
  unfold add, write; simpl. rewrite Nat.eqb_refl. repeat split.
  intros l' Hl. apply Nat.eqb_neq in Hl. rewrite Hl. reflexivity.
Qed.

Lemma bind_run {A B} (m : St A) (k : A -> St B) (hp : Heap) :
  bind m k hp = k (fst (m hp)) (snd (m hp)).
Proof. unfold bind. destruct (m hp); reflexivity. Qed.

End StoreFacts.

(** Run the next store operation of the goal: name the store it leaves and
    keep what its specification says. *)
Ltac run_op :=
  match goal with
  | |- context [VStore.copy ?l ?hp] =>
      let hn := fresh "hp" in
      let R := fresh "Hr" in let N := fresh "Hn" in
      let C := fresh "Hc" in let F := fresh "Hf" in
      is_var hp; destruct (copy_spec l hp) as (R & N & C & F);
      rewrite ?R in *; set (hn := snd (VStore.copy l hp)) in *;
      clearbody hn
  | |- context [VStore.mult ?l ?n ?hp] =>
      let hn := fresh "hp" in
      let R := fresh "Hr" in let N := fresh "Hn" in
      let C := fresh "Hc" in let F := fresh "Hf" in
      is_var hp; destruct (mult_spec l n hp) as (R & N & C & F);
      rewrite ?R in *; set (hn := snd (VStore.mult l n hp)) in *;
      clearbody hn
  | |- context [VStore.add ?l ?l2 ?hp] =>
      let hn := fresh "hp" in
      let R := fresh "Hr" in let N := fresh "Hn" in
      let C := fresh "Hc" in let F := fresh "Hf" in
      is_var hp; destruct (add_spec l l2 hp) as (R & N & C & F);
      rewrite ?R in *; set (hn := snd (VStore.add l l2 hp)) in *;
      clearbody hn
  end.

Ltac chase_cells :=
  repeat match goal with
  | H : VStore.cells ?h ?l = _ |- context [VStore.cells ?h ?l] => rewrite H
  | H : forall l', l' <> _ -> VStore.cells ?h l' = _
    |- context [VStore.cells ?h ?l] => rewrite (H l) by lia
  end.

Lemma integrate_run (hp : VStore.Heap) (pos vel acc : VStore.loc) (dt : R)
    (r : VStore.loc * VStore.loc * VStore.Heap) :
  (pos < VStore.next hp)%nat ->
  (vel < VStore.next hp)%nat ->
  (acc < VStore.next hp)%nat ->
  Utils.integrate pos vel acc dt hp = r ->
  fst (fst r) = VStore.next hp /\
  snd (fst r) = S (VStore.next hp) /\
  VStore.cells (snd r) (VStore.next hp) =
    Vector.add (Vector.add (VStore.cells hp pos)
                           (Vector.mult (VStore.cells hp vel) dt))
               (Vector.mult (VStore.cells hp acc) (0.5 * dt * dt)) /\
  VStore.cells (snd r) (S (VStore.next hp)) =
    Vector.add (VStore.cells hp vel) (Vector.mult (VStore.cells hp acc) dt) /\
  (forall l : VStore.loc,
     (l < VStore.next hp)%nat -> VStore.cells (snd r) l = VStore.cells hp l).
Proof.
  intros Hp Hv Ha. unfold Utils.integrate.
  repeat (rewrite bind_run; cbv beta).
  do 11 run_op.
  unfold VStore.ret. intros <-. cbn [fst snd].
  repeat match goal with
  | H : VStore.next _ = _ |- _ => rewrite H in *; clear H
  end.
  repeat split; try reflexivity; intros; chase_cells; reflexivity.
Qed.

(** C2: called on allocated vectors, [integrate] returns two fresh vectors,
    the position [pos + vel*dt + 0.5*acc*dt^2] and the velocity
    [vel + acc*dt], and every vector allocated before the call, the three
    arguments among them, holds what it held. *)
Theorem integrate_velocity_verlet (hp : VStore.Heap) (pos vel acc : VStore.loc) (dt : R) :
  (pos < VStore.next hp)%nat ->
  (vel < VStore.next hp)%nat ->
  (acc < VStore.next hp)%nat ->
  let r := Utils.integrate pos vel acc dt hp in
  let newPos := fst (fst r) in
  let newVel := snd (fst r) in
  let hp' := snd r in
  let p := VStore.cells hp pos in
  let v := VStore.cells hp vel in
  let a := VStore.cells hp acc in
  VStore.cells hp' newPos =
    mkV2 (vx p + vx v * dt + 0.5 * vx a * dt ^ 2)
         (vy p + vy v * dt + 0.5 * vy a * dt ^ 2) /\
  VStore.cells hp' newVel = mkV2 (vx v + vx a * dt) (vy v + vy a * dt) /\
  (forall l : VStore.loc,
     (l < VStore.next hp)%nat -> VStore.cells hp' l = VStore.cells hp l) /\
  (VStore.next hp <= newPos)%nat /\ (VStore.next hp <= newVel)%nat /\
  newPos <> newVel.
Proof.
  intros Hp Hv Ha. cbv zeta.
  destruct (integrate_run hp pos vel acc dt _ Hp Hv Ha eq_refl)
    as (-> & -> & HP & HV & HF).
  rewrite HP, HV. repeat split; try lia; try exact HF.
  - apply V2_eq; cbn; ring.
Qed.

Lemma integrate_velocity_verlet_witness :
  let r := Utils.integrate 0%nat 1%nat 2%nat 1 threeVectors in
  VStore.cells (snd r) (fst (fst r)) =
    mkV2 (0 + 2 * 1 + 0.5 * 0 * 1 ^ 2) (10 + 0 * 1 + 0.5 * (-10) * 1 ^ 2) /\
  VStore.cells (snd r) (snd (fst r)) = mkV2 (2 + 0 * 1) (0 + (-10) * 1) /\
  (forall l : VStore.loc,
     (l < 3)%nat -> VStore.cells (snd r) l = VStore.cells threeVectors l) /\
  (3 <= fst (fst r))%nat /\ (3 <= snd (fst r))%nat /\
  fst (fst r) <> snd (fst r).
Proof.
  apply (integrate_velocity_verlet threeVectors 0%nat 1%nat 2%nat 1);
    simpl; lia.
Defined.

(** ** Utils: collision with the walls of the box *)

Lemma Rabs_restitution_nonneg (v e : R) : 0 <= e -> 0 <= Rabs v * e.
Proof. intros He. apply Rmult_le_pos; [apply Rabs_pos | exact He]. Qed.

Lemma neg_Rabs_restitution_nonpos (v e : R) : 0 <= e -> - Rabs v * e <= 0.
Proof. intros He. pose proof (Rabs_restitution_nonneg v e He). lra. Qed.

(** The work against gravity is [2 * g * liftDistance] also when [g = 0]. *)
Lemma lift_work (g lift : R) :
  0 <= g -> (if Rgtb g 0 then 2 * g * lift else 0) = 2 * g * lift.
Proof.
  intros Hg. unfold Rgtb. cmp_goal; [reflexivity|].
  replace g with 0 by lra. ring.
Qed.

(** A box smaller than the ball does not hold it: the ball overlaps
    opposite walls at once, and since the left wall and the ceiling are
    tested first, it leaves to the right and is not put to rest on the
    floor. *)
Lemma collideBoundary_smaller_box :
  let r := Utils.collideBoundary (mkV2 0.5 0.5) (mkV2 1 0) (Utils.mkBox 1 1) 1 1 None in
  0 <= 1 <= 1 /\
  (0.5 + 1 > 1 /\ ~ vx (snd r) <= 0) /\
  (0.5 - 1 < 0 /\ 0 ^ 2 <= 2 * 0 * (2 * (0 - (0.5 - 1))) /\
   ~ (vy (fst r) = 1 /\ vy (snd r) = 0)).
Proof.
  cbv zeta. unfold Utils.collideBoundary, Rgtb. cbn [vx vy Utils.w Utils.h].
  repeat (cmp_goal; try lra). cbn [fst snd vx vy].
  split; [lra|]. split; [split; [lra|]|split; [lra|split; [lra|]]].
  - rewrite Rabs_right by lra. lra.
  - intros [Hy _]. lra.
Qed.

(** The four cases of [collideBoundary], each under the test that guards
    it in the code. *)
Lemma collideBoundary_cases (pos vel : V2) (bounds : Utils.Box)
    (radius restitution : R) (acc : option V2) :
  0 <= restitution ->
  let r := Utils.collideBoundary pos vel bounds radius restitution acc in
  let g := match acc with Some a => Rabs (vy a) | None => 0 end in
  let penetration := 0 - (vy pos - radius) in
  (vx pos - radius < 0 -> 0 <= vx (snd r)) /\
  (vx pos + radius > Utils.w bounds -> ~ vx pos - radius < 0 ->
     vx (snd r) <= 0) /\
  (vy pos + radius > Utils.h bounds -> vy (snd r) <= 0) /\
  (vy pos - radius < 0 -> ~ vy pos + radius > Utils.h bounds ->
   vy vel ^ 2 <= 2 * g * (2 * penetration) ->
     vy (fst r) = radius /\ vy (snd r) = 0).
Proof.
  intros He0. cbv zeta.
  assert (Hg : 0 <= match acc with Some a => Rabs (vy a) | None => 0 end)
    by (destruct acc; [apply Rabs_pos | lra]).
  unfold Utils.collideBoundary. rewrite lift_work by exact Hg.
  unfold Rgtb.
  pose proof (Rabs_restitution_nonneg (vx vel) restitution He0).
  pose proof (Rabs_restitution_nonneg (vy vel) restitution He0).
  repeat cmp_goal; cbn [fst snd vx vy]; repeat split; intros; lra.
Qed.

(** Whatever the size of the box: with restitution in [0,1], a ball that
    overlapped the left wall leaves with horizontal velocity >= 0; one that
    overlapped the right wall and not the left, with horizontal velocity
    <= 0; one that overlapped the ceiling, with vertical velocity <= 0; and
    one that overlapped the floor and not the ceiling, with squared vertical
    speed at most 2*g*(2*penetration), is put at rest on the floor. *)
Lemma collideBoundary_reflects (pos vel : V2) (bounds : Utils.Box)
    (radius restitution : R) (acc : option V2) :
  0 <= restitution <= 1 ->
  let r := Utils.collideBoundary pos vel bounds radius restitution acc in
  let g := match acc with Some a => Rabs (vy a) | None => 0 end in
  let penetration := 0 - (vy pos - radius) in
  (vx pos - radius < 0 -> 0 <= vx (snd r)) /\
  (vx pos + radius > Utils.w bounds -> ~ vx pos - radius < 0 ->
     vx (snd r) <= 0) /\
  (vy pos + radius > Utils.h bounds -> vy (snd r) <= 0) /\
  (vy pos - radius < 0 -> ~ vy pos + radius > Utils.h bounds ->
   vy vel ^ 2 <= 2 * g * (2 * penetration) ->
     vy (fst r) = radius /\ vy (snd r) = 0).
Proof. intros [He0 _]. apply collideBoundary_cases. exact He0. Qed.

(** A ball over the right wall and the floor of a 10 x 8 box, falling
    slowly: it leaves to the left and is put at rest on the floor. *)
Lemma collideBoundary_reflects_witness :
  0 <= 0.5 <= 1 /\
  let r := Utils.collideBoundary (mkV2 9.5 0.5) (mkV2 3 (-1)) (Utils.mkBox 10 8)
             1 0.5 (Some (mkV2 0 (-9.81))) in
  vx (snd r) <= 0 /\ vy (fst r) = 1 /\ vy (snd r) = 0.
Proof.
  split; [lra|].
  destruct (collideBoundary_reflects (mkV2 9.5 0.5) (mkV2 3 (-1)) (Utils.mkBox 10 8)
              1 0.5 (Some (mkV2 0 (-9.81))) ltac:(lra)) as (_ & HR & _ & HF).
  cbv zeta in *. cbn [vx vy Utils.w Utils.h] in *.
  split; [apply HR; lra | apply HF; try lra].
  rewrite Rabs_left by lra. replace ((-1) ^ 2) with 1 by ring. lra.
Defined.

(** C4: for a ball of radius r in a box of width w and height h that
    holds it ([2*r <= w] and [2*r <= h]), with restitution in [0,1],
    [collideBoundary] reflects the velocity back into the box: after an
    overlap of the left wall the horizontal velocity is >= 0, of the right
    wall <= 0, of the ceiling the vertical velocity is <= 0, and on a floor
    hit with squared vertical speed at most the lift work
    2*g*(2*penetration) the ball is at rest on the floor (y = r, vertical
    velocity 0). *)
Theorem collideBoundary_reflects_fitting (pos vel : V2) (bounds : Utils.Box)
    (radius restitution : R) (acc : option V2) :
  0 <= restitution <= 1 ->
  2 * radius <= Utils.w bounds -> 2 * radius <= Utils.h bounds ->
  let r := Utils.collideBoundary pos vel bounds radius restitution acc in
  let g := match acc with Some a => Rabs (vy a) | None => 0 end in
  let penetration := 0 - (vy pos - radius) in
  (vx pos - radius < 0 -> 0 <= vx (snd r)) /\
  (vx pos + radius > Utils.w bounds -> vx (snd r) <= 0) /\
  (vy pos + radius > Utils.h bounds -> vy (snd r) <= 0) /\
  (vy pos - radius < 0 -> vy vel ^ 2 <= 2 * g * (2 * penetration) ->
     vy (fst r) = radius /\ vy (snd r) = 0).
Proof.
  intros He Hw Hh. cbv zeta.
  destruct (collideBoundary_cases pos vel bounds radius restitution acc (proj1 He))
    as (HL & HR & HC & HF).
  repeat split; intros.
  - apply HL; assumption.
  - apply HR; [assumption | lra].
  - apply HC; assumption.
  - apply HF; [assumption | lra | assumption].
  - apply HF; [assumption | lra | assumption].
Qed.

(** A ball over the right wall and the floor of a 10 x 8 box that holds
    it, falling slowly: it leaves to the left and is put at rest on the
    floor. *)
Lemma collideBoundary_reflects_fitting_witness :
  (0 <= 0.5 <= 1 /\ 2 * 1 <= 10 /\ 2 * 1 <= 8) /\
  let r := Utils.collideBoundary (mkV2 9.5 0.5) (mkV2 3 (-1)) (Utils.mkBox 10 8)
             1 0.5 (Some (mkV2 0 (-9.81))) in
  vx (snd r) <= 0 /\ vy (fst r) = 1 /\ vy (snd r) = 0.
Proof.
  split; [lra|].
  destruct (collideBoundary_reflects_fitting (mkV2 9.5 0.5) (mkV2 3 (-1))
              (Utils.mkBox 10 8) 1 0.5 (Some (mkV2 0 (-9.81)))
              ltac:(lra) ltac:(cbn; lra) ltac:(cbn; lra)) as (_ & HR & _ & HF).
  cbv zeta in *. cbn [vx vy Utils.w Utils.h] in *.
  split; [apply HR; lra | apply HF; [lra|]].
  rewrite Rabs_left by lra. replace ((-1) ^ 2) with 1 by ring. lra.
Defined.

(** ** The Test page: collisions *)

Lemma div_nonzero (a : V2) (n : R) :
  n <> 0 -> Vector.div a n = mkV2 (vx a / n) (vy a / n).
Proof.
  intros Hn. unfold Vector.div.
  destruct (Reqb n 0) eqn:E; [apply Reqb_true in E; contradiction | reflexivity].
Qed.

(** An impulse changes the momentum of a body by the impulse. *)
Lemma applyImpulse_momentum (J : V2) (b : Body) :
  mass (params b) <> 0 ->
  getMomentum (applyImpulse J b) = Vector.add (getMomentum b) J.
Proof.
  intros Hm. unfold getMomentum, applyImpulse. cbn [state params with_state
    with_velocity velocity]. rewrite div_nonzero by exact Hm.
  apply V2_eq; cbn; field; exact Hm.
Qed.

Lemma impulses_opposite (body1 body2 : Body) :
  Vector.add (impulseOn1 body1 body2) (impulseOn2 body1 body2) = mkV2 0 0.
Proof. unfold impulseOn1, impulseOn2. apply V2_eq; cbn; ring. Qed.

Lemma impulses_same_magnitude (body1 body2 : Body) :
  Vector.mag (impulseOn1 body1 body2) = Vector.mag (impulseOn2 body1 body2).
Proof.
  unfold impulseOn1, impulseOn2, Vector.mag, Vector.magSq. f_equal. cbn. ring.
Qed.

(** What [resolvePair] does when the impulse is applied. *)
Lemma resolvePair_fires (body1 body2 : Body) :
  Vector.dist (position (state body1)) (position (state body2)) < minDist body1 body2 ->
  ~ velAlongNormal body1 body2 < 0 ->
  let overlap :=
    minDist body1 body2 -
    Vector.dist (position (state body1)) (position (state body2)) in
  let push := Vector.mult (normal body1 body2) (overlap / 2) in
  resolvePair body1 body2 =
    (applyImpulse (impulseOn1 body1 body2)
       (with_state body1 (with_position (state body1)
          (Vector.sub (position (state body1)) push))),
     applyImpulse (impulseOn2 body1 body2)
       (with_state body2 (with_position (state body2)
          (Vector.add (position (state body2)) push)))).
Proof.
  intros Hd Hv. cbv zeta. unfold resolvePair.
  apply Rltb_true in Hd. rewrite Hd.
  destruct (Rltb (velAlongNormal body1 body2) 0) eqn:E;
    [apply Rltb_true in E; contradiction | reflexivity].
Qed.

(** Whatever branch is taken, a pair of bodies of nonzero mass keeps its
    total momentum, and each body its parameters. *)
Lemma resolvePair_momentum (body1 body2 : Body) :
  mass (params body1) <> 0 -> mass (params body2) <> 0 ->
  Vector.add (getMomentum (fst (resolvePair body1 body2)))
             (getMomentum (snd (resolvePair body1 body2))) =
  Vector.add (getMomentum body1) (getMomentum body2).
Proof.
  intros H1 H2. unfold resolvePair.
  destruct (Rltb _ (minDist body1 body2)); [|reflexivity].
  destruct (Rltb (velAlongNormal body1 body2) 0); [reflexivity|].
  cbn [fst snd]. rewrite !applyImpulse_momentum by assumption.
  unfold getMomentum. apply V2_eq; cbn; ring.
Qed.

Lemma resolvePair_params (body1 body2 : Body) :
  params (fst (resolvePair body1 body2)) = params body1 /\
  params (snd (resolvePair body1 body2)) = params body2.
Proof.
  unfold resolvePair.
  destruct (Rltb _ (minDist body1 body2)); [|split; reflexivity].
  destruct (Rltb (velAlongNormal body1 body2) 0); split; reflexivity.
Qed.

(** C3: when the collision of two bodies of positive mass is resolved by
    the impulse, body 1 receives [normal * -impulse] and body 2
    [normal * impulse]: the two impulses cancel and have the same
    magnitude, each velocity changes by the impulse over the mass, and the
    total momentum m1*v1 + m2*v2 after the impulse is what it was before. *)
Theorem collision_conserves_momentum (body1 body2 : Body) :
  0 < mass (params body1) -> 0 < mass (params body2) ->
  Vector.dist (position (state body1)) (position (state body2)) < minDist body1 body2 ->
  ~ velAlongNormal body1 body2 < 0 ->
  let body1' := fst (resolvePair body1 body2) in
  let body2' := snd (resolvePair body1 body2) in
  let J1 := Vector.mult (normal body1 body2) (- impulse body1 body2) in
  let J2 := Vector.mult (normal body1 body2) (impulse body1 body2) in
  velocity (state body1') =
    Vector.add (velocity (state body1))
               (mkV2 (vx J1 / mass (params body1)) (vy J1 / mass (params body1))) /\
  velocity (state body2') =
    Vector.add (velocity (state body2))
               (mkV2 (vx J2 / mass (params body2)) (vy J2 / mass (params body2))) /\
  Vector.add J1 J2 = mkV2 0 0 /\
  Vector.mag J1 = Vector.mag J2 /\
  mass (params body1') = mass (params body1) /\
  mass (params body2') = mass (params body2) /\
  Vector.add (Vector.mult (velocity (state body1')) (mass (params body1')))
             (Vector.mult (velocity (state body2')) (mass (params body2'))) =
  Vector.add (Vector.mult (velocity (state body1)) (mass (params body1)))
             (Vector.mult (velocity (state body2)) (mass (params body2))).
Proof.
  intros Hm1 Hm2 Hd Hv. cbv zeta.
  assert (Hn1 : mass (params body1) <> 0) by lra.
  assert (Hn2 : mass (params body2) <> 0) by lra.
  pose proof (resolvePair_momentum body1 body2 Hn1 Hn2) as Hmom.
  destruct (resolvePair_params body1 body2) as [Hp1 Hp2].
  unfold getMomentum in Hmom.
  rewrite (resolvePair_fires body1 body2 Hd Hv) in *. cbv zeta in *.
  cbn [fst snd] in *.
  repeat split.
  - unfold applyImpulse. cbn [state params with_state with_velocity velocity
      with_position]. rewrite div_nonzero by exact Hn1. reflexivity.
  - unfold applyImpulse. cbn [state params with_state with_velocity velocity
      with_position]. rewrite div_nonzero by exact Hn2. reflexivity.
  - apply impulses_opposite.
  - apply impulses_same_magnitude.
  - exact Hmom.
Qed.

Lemma dist_ballA_ballB :
  Vector.dist (position (state ballA)) (position (state ballB)) = 1.
Proof.
  unfold Vector.dist, Vector.mag, Vector.magSq. cbn.
  replace ((1 - 0) * (1 - 0) + (0 - 0) * (0 - 0)) with 1 by ring.
  apply sqrt_1.
Qed.

Lemma normal_ballA_ballB : normal ballA ballB = mkV2 1 0.
Proof.
  unfold normal, Vector.normalize.
  change (Vector.mag (Vector.sub (position (state ballB)) (position (state ballA))))
    with (Vector.dist (position (state ballA)) (position (state ballB))).
  rewrite dist_ballA_ballB.
  destruct (Reqb 1 0) eqn:E; [apply Reqb_true in E; lra|].
  apply V2_eq; cbn; field.
Qed.

Lemma velAlongNormal_ballA_ballB : velAlongNormal ballA ballB = 1.
Proof.
  unfold velAlongNormal. rewrite normal_ballA_ballB. unfold Vector.dot. cbn. ring.
Qed.

Lemma collision_conserves_momentum_witness :
  let body1' := fst (resolvePair ballA ballB) in
  let body2' := snd (resolvePair ballA ballB) in
  let J1 := Vector.mult (normal ballA ballB) (- impulse ballA ballB) in
  let J2 := Vector.mult (normal ballA ballB) (impulse ballA ballB) in
  velocity (state body1') =
    Vector.add (velocity (state ballA))
               (mkV2 (vx J1 / mass (params ballA)) (vy J1 / mass (params ballA))) /\
  velocity (state body2') =
    Vector.add (velocity (state ballB))
               (mkV2 (vx J2 / mass (params ballB)) (vy J2 / mass (params ballB))) /\
  Vector.add J1 J2 = mkV2 0 0 /\
  Vector.mag J1 = Vector.mag J2 /\
  mass (params body1') = mass (params ballA) /\
  mass (params body2') = mass (params ballB) /\
  Vector.add (Vector.mult (velocity (state body1')) (mass (params body1')))
             (Vector.mult (velocity (state body2')) (mass (params body2'))) =
  Vector.add (Vector.mult (velocity (state ballA)) (mass (params ballA)))
             (Vector.mult (velocity (state ballB)) (mass (params ballB))).
Proof.
  apply (collision_conserves_momentum ballA ballB).
  - simpl; lra.
  - simpl; lra.
  - rewrite dist_ballA_ballB. unfold minDist. simpl. lra.
  - rewrite velAlongNormal_ballA_ballB. lra.
Defined.

(** ** DragController *)

(** [startDrag] on a body of the store makes the controller active on that
    body and zeroes the body's velocity. *)
Lemma startDrag_starts (SCALE CANVAS_HEIGHT : R) (body : ref) (mx my : R)
    (store : list Body) (c : Controller) (b : Body) :
  store !! body = Some b ->
  let r := startDrag SCALE CANVAS_HEIGHT body mx my store c in
  isDragging (snd r) = true /\
  getDraggedBody (snd r) = Some body /\
  exists b', fst r !! body = Some b' /\ velocity (state b') = mkV2 0 0 /\
             position (state b') = position (state b).
Proof.
  intros Hb. cbv zeta. unfold startDrag. rewrite Hb. cbn [fst snd].
  repeat split.
  eexists. split.
  - apply list_lookup_insert_eq. eapply lookup_lt_Some; exact Hb.
  - destruct (planeState _); split; reflexivity.
Qed.

(** The loop of [handlePress] never reports a hit. *)
Lemma handlePress_loop_false (p : P5) (SCALE CANVAS_HEIGHT : R)
    (bodies : list ref) (store : list Body) (c : Controller) :
  handlePress_loop SCALE CANVAS_HEIGHT p bodies store c = (false, (store, c)).
Proof. induction bodies as [|body rest IH]; simpl; [reflexivity | exact IH]. Qed.

Lemma handlePress_false (p : P5) (SCALE CANVAS_HEIGHT : R)
    (bodies : list ref + ref) (store : list Body) (c : Controller) :
  handlePress SCALE CANVAS_HEIGHT p bodies store c = (false, (store, c)).
Proof. unfold handlePress. apply handlePress_loop_false. Qed.

(** C5: the press is on the ball ([checkHover] says so) and yet
    [handlePress] returns [false], the controller stays inactive with no
    dragged body, and the ball keeps its velocity. *)
Theorem handlePress_ignores_hit :
  let store := [pressedBall] in
  let c := DragController.constructor false 0 in
  let r := handlePress 100 600 pressAtCentre (inl [0%nat]) store c in
  snd (checkHover 100 pressAtCentre (toScreenPosition 100 600 pressedBall)
         pressedBall) = true /\
  fst r = false /\
  isDragging (snd (snd r)) = false /\
  getDraggedBody (snd (snd r)) = None /\
  fst (snd r) = [pressedBall] /\
  velocity (state pressedBall) = mkV2 4 0.
Proof.
  cbv zeta. rewrite handlePress_false. cbn [fst snd].
  repeat split.
  unfold checkHover, toScreenPosition, Utils.physicsToScreen, Utils.toPixels,
    Utils.physicsYToScreenY, p5_dist. cbn.
  replace ((200 - 2 * 100) * (200 - 2 * 100) +
           (300 - (600 - 3 * 100)) * (300 - (600 - 3 * 100))) with 0 by ring.
  rewrite sqrt_0. apply Rleb_true. lra.
Qed.

(** ** The Test page: the whole collision pass *)

Lemma foldl_invariant {A B} (P : A -> Prop) (f : A -> B -> A) (l : list B) (a : A) :
  P a -> (forall a x, x ∈ l -> P a -> P (f a x)) -> P (foldl f a l).
Proof.
  revert a. induction l as [|x l IH]; intros a Ha Hf; simpl; [exact Ha|].
  apply IH.
  - apply Hf; [left | exact Ha].
  - intros a' y Hy. apply Hf. right. exact Hy.
Qed.

Lemma totalMomentum_insert (bodies : list Body) (i : nat) (b b' : Body) :
  bodies !! i = Some b ->
  totalMomentum (<[i := b']> bodies) =
    Vector.add (Vector.sub (totalMomentum bodies) (getMomentum b)) (getMomentum b').
Proof.
  revert i. induction bodies as [|c bodies IH]; intros [|i] Hi; simpl in *;
    try discriminate.
  - injection Hi as ->. apply V2_eq; cbn; ring.
  - rewrite (IH i Hi). apply V2_eq; cbn; ring.
Qed.

Lemma collideAt_invariant (i j : nat) (bodies : list Body) (T : V2) :
  i <> j ->
  totalMomentum bodies = T /\ Forall massive bodies ->
  totalMomentum (collideAt i j bodies) = T /\ Forall massive (collideAt i j bodies).
Proof.
  intros Hij [HT HM]. unfold collideAt.
  destruct (bodies !! i) as [body1|] eqn:Hi; [|split; assumption].
  destruct (bodies !! j) as [body2|] eqn:Hj; [|split; assumption].
  assert (H1 : massive body1) by (eapply Forall_lookup_1; eassumption).
  assert (H2 : massive body2) by (eapply Forall_lookup_1; eassumption).
  pose proof (resolvePair_momentum body1 body2 H1 H2) as Hmom.
  destruct (resolvePair_params body1 body2) as [Hp1 Hp2].
  destruct (resolvePair body1 body2) as [body1' body2']. cbn [fst snd] in *.
  split.
  - rewrite (totalMomentum_insert _ j body2).
    + rewrite (totalMomentum_insert _ i body1) by exact Hi.
      rewrite HT.
      apply (f_equal vx) in Hmom as Hx. apply (f_equal vy) in Hmom as Hy.
      cbn in Hx, Hy. apply V2_eq; cbn; lra.
    + rewrite list_lookup_insert_ne by exact Hij. exact Hj.
  - apply Forall_insert; [apply Forall_insert; [exact HM|]|];
      unfold massive; [rewrite Hp1 | rewrite Hp2]; assumption.
Qed.

(** * Part III: further properties of the toolkit *)

(** ** Signs, magnitudes and unit vectors *)

Lemma sign_cases (x : R) :
  (0 < x /\ sign x = 1) \/ (x < 0 /\ sign x = -1) \/ (x = 0 /\ sign x = 0).
Proof.
  unfold sign, Rgtb.
  destruct (Rltb 0 x) eqn:H1; [apply Rltb_true in H1; left; split; [lra|reflexivity]|].
  apply Rltb_false in H1.
  destruct (Rltb x 0) eqn:H2; [apply Rltb_true in H2; right; left; split; [lra|reflexivity]|].
  apply Rltb_false in H2. right; right; split; [lra|reflexivity].
Qed.

Lemma sign_mul_self (x : R) : sign x * x = Rabs x.
Proof.
  destruct (sign_cases x) as [[H ->]|[[H ->]|[H ->]]].
  - rewrite Rabs_right by lra. ring.
  - rewrite Rabs_left by lra. ring.
  - subst x. rewrite Rabs_R0. ring.
Qed.

Lemma sign_opp (x : R) : sign (- x) = - sign x.
Proof.
  destruct (sign_cases x) as [[H Hs]|[[H Hs]|[H Hs]]];
  destruct (sign_cases (- x)) as [[H' Hs']|[[H' Hs']|[H' Hs']]];
  rewrite Hs, Hs'; lra.
Qed.

Lemma magSq_nonneg (v : V2) : 0 <= Vector.magSq v.
Proof. unfold Vector.magSq. nra. Qed.

Lemma mag_nonneg (v : V2) : 0 <= Vector.mag v.
Proof. apply sqrt_pos. Qed.

Lemma mag_mult (v : V2) (n : R) : Vector.mag (Vector.mult v n) = Rabs n * Vector.mag v.
Proof.
  unfold Vector.mag.
  replace (Vector.magSq (Vector.mult v n)) with (n² * Vector.magSq v)
    by (unfold Vector.magSq, Vector.mult, Rsqr; cbn; ring).
  rewrite sqrt_mult; [|apply Rle_0_sqr | apply magSq_nonneg].
  rewrite sqrt_Rsqr_abs. reflexivity.
Qed.

Lemma mag_zero_iff (v : V2) : Vector.mag v = 0 <-> v = mkV2 0 0.
Proof.
  split.
  - intros H. apply sqrt_eq_0 in H; [|apply magSq_nonneg].
    unfold Vector.magSq in H. apply V2_eq; cbn; nra.
  - intros ->. unfold Vector.mag, Vector.magSq. cbn.
    replace (0 * 0 + 0 * 0) with 0 by ring. apply sqrt_0.
Qed.

Lemma normalize_nonzero (v : V2) :
  v <> mkV2 0 0 -> Vector.normalize v = Vector.mult v (1 / Vector.mag v).
Proof.
  intros Hv. unfold Vector.normalize.
  destruct (Reqb (Vector.mag v) 0) eqn:E; [|reflexivity].
  apply Reqb_true in E. apply mag_zero_iff in E. contradiction.
Qed.

Lemma mag_pos (v : V2) : v <> mkV2 0 0 -> 0 < Vector.mag v.
Proof.
  intros Hv. pose proof (mag_nonneg v).
  destruct (Req_dec_T (Vector.mag v) 0) as [E|E]; [|lra].
  apply mag_zero_iff in E. contradiction.
Qed.

Lemma mag_normalize (v : V2) : v <> mkV2 0 0 -> Vector.mag (Vector.normalize v) = 1.
Proof.
  intros Hv. rewrite normalize_nonzero by exact Hv. rewrite mag_mult.
  pose proof (mag_pos v Hv) as Hp.
  rewrite Rabs_right.
  - field. lra.
  - apply Rle_ge. apply Rlt_le. apply Rdiv_lt_0_compat; lra.
Qed.

(** ** ForceCalculator: friction, drag, components *)

Lemma staticFriction_spec (N mu F : R) :
  match ForceCalculator.staticFriction N mu F with
  | Some f => Rabs F <= mu * N /\ f + F = 0
  | None => mu * N < Rabs F
  end.
Proof.
  unfold ForceCalculator.staticFriction. cmp_goal.
  - split; [exact Hcmp | ring].
  - exact Hcmp.
Qed.

(** Static friction either cancels the applied force, which is then within
    [coefficient * N], or gives nothing, and the applied force is beyond it. *)
Theorem staticFriction_balances (N mu F : R) :
  match ForceCalculator.staticFriction N mu F with
  | Some f => Rabs F <= mu * N /\ f + F = 0
  | None => mu * N < Rabs F
  end.
Proof. apply staticFriction_spec. Qed.

Lemma kineticFriction_spec (N mu v : R) :
  0 <= mu * N ->
  ForceCalculator.kineticFriction N mu v * v <= 0 /\
  (0.001 <= Rabs v -> Rabs (ForceCalculator.kineticFriction N mu v) = mu * N) /\
  (Rabs v < 0.001 -> ForceCalculator.kineticFriction N mu v = 0).
Proof.
  intros HN. unfold ForceCalculator.kineticFriction. cmp_goal.
  - repeat split; intros; try lra.
  - repeat split; intros; try lra.
    + replace (- sign v * (mu * N) * v) with (- (sign v * v) * (mu * N)) by ring.
      rewrite sign_mul_self. pose proof (Rabs_pos v). nra.
    + destruct (sign_cases v) as [[H' ->]|[[H' ->]|[H' ->]]].
      * replace (- (1) * (mu * N)) with (- (mu * N)) by ring.
        rewrite Rabs_Ropp. apply Rabs_right. lra.
      * replace (- (-1) * (mu * N)) with (mu * N) by ring. apply Rabs_right. lra.
      * subst v. rewrite Rabs_R0 in Hcmp. lra.
Qed.

(** X1: Kinetic friction never pushes along the motion; its magnitude is
    [coefficient * N] for a speed of at least 0.001 and zero below. *)
Theorem kineticFriction_opposes (N mu v : R) :
  0 <= mu * N ->
  ForceCalculator.kineticFriction N mu v * v <= 0 /\
  (0.001 <= Rabs v -> Rabs (ForceCalculator.kineticFriction N mu v) = mu * N) /\
  (Rabs v < 0.001 -> ForceCalculator.kineticFriction N mu v = 0).
Proof. apply kineticFriction_spec. Qed.

Lemma kineticFriction_opposes_witness :
  0 <= 0.3 * 10 /\
  ForceCalculator.kineticFriction 10 0.3 2 * 2 <= 0 /\
  Rabs (ForceCalculator.kineticFriction 10 0.3 2) = 0.3 * 10.
Proof.
  split; [lra|].
  destruct (kineticFriction_opposes 10 0.3 2 ltac:(lra)) as (H1 & H2 & _).
  split; [exact H1 | apply H2]. rewrite Rabs_right; lra.
Defined.

(** X2: With [N >= 0] and [0 <= kinetic <= static], friction is never larger
    than [static * N]; on a moving body it does not push along the
    velocity, on a body at rest not along the applied force, and while the
    applied force is within [static * N] it cancels it. *)
Theorem friction_bounded (N mus muk v F : R) :
  0 <= N -> 0 <= muk <= mus ->
  let f := ForceCalculator.friction N mus muk v F in
  Rabs f <= mus * N /\
  (0.001 < Rabs v -> f * v <= 0) /\
  (Rabs v <= 0.001 -> f * F <= 0) /\
  (Rabs v <= 0.001 -> Rabs F <= mus * N -> f + F = 0).
Proof.
  intros HN [Hk Hs]. cbv zeta.
  assert (HkN : 0 <= muk * N) by nra.
  assert (Hks : muk * N <= mus * N) by nra.
  unfold ForceCalculator.friction, Rgtb.
  destruct (Rltb 0.001 (Rabs v)) eqn:Hm;
    [apply Rltb_true in Hm | apply Rltb_false in Hm]; cbn [negb].
  - destruct (kineticFriction_spec N muk v HkN) as (Ho & Hmag & _).
    split; [rewrite Hmag by lra; exact Hks|].
    repeat split; intros; lra.
  - pose proof (staticFriction_spec N mus F) as Hst.
    destruct (ForceCalculator.staticFriction N mus F) as [f|].
    + destruct Hst as [Hle Hf]. replace f with (- F) by lra.
      repeat split; intros; try lra.
      * rewrite Rabs_Ropp. exact Hle.
      * nra.
    + repeat split; intros; try lra.
      * destruct (sign_cases F) as [[H' ->]|[[H' ->]|[H' ->]]].
        -- replace (- (1) * muk * N) with (- (muk * N)) by ring.
           rewrite Rabs_Ropp, Rabs_right; lra.
        -- replace (- (-1) * muk * N) with (muk * N) by ring.
           rewrite Rabs_right; lra.
        -- replace (- 0 * muk * N) with 0 by ring. rewrite Rabs_R0. nra.
      * replace (- sign F * muk * N * F) with (- (sign F * F) * (muk * N)) by ring.
        rewrite sign_mul_self. pose proof (Rabs_pos F). nra.
Qed.

Lemma friction_bounded_witness :
  (0 <= 10 /\ 0 <= 0.3 <= 0.5) /\
  let f := ForceCalculator.friction 10 0.5 0.3 0 4 in
  Rabs f <= 0.5 * 10 /\ f * 4 <= 0 /\ f + 4 = 0.
Proof.
  split; [lra|].
  destruct (friction_bounded 10 0.5 0.3 0 4 ltac:(lra) ltac:(lra)) as (H1 & _ & H3 & H4).
  cbv zeta in *.
  assert (H0 : Rabs 0 <= 0.001) by (rewrite Rabs_R0; lra).
  split; [exact H1|]. split; [apply H3; exact H0 | apply H4; [exact H0|]].
  rewrite Rabs_right; lra.
Defined.

(** The normal force is never negative, and is the perpendicular weight
    less the perpendicular component when that is not negative. *)
Theorem normalForce_nonneg (m g theta perp : R) :
  0 <= ForceCalculator.normalForce m g theta perp /\
  (0 <= m * g * cos theta - perp ->
     ForceCalculator.normalForce m g theta perp = m * g * cos theta - perp) /\
  (m * g * cos theta - perp <= 0 -> ForceCalculator.normalForce m g theta perp = 0).
Proof.
  unfold ForceCalculator.normalForce. cbv zeta.
  repeat split; intros.
  - apply Rmax_l.
  - apply Rmax_right. assumption.
  - apply Rmax_left. assumption.
Qed.

(** X3: Drag with a coefficient [>= 0] never pushes along the velocity, and
    reversing the velocity reverses the drag. *)
Theorem airResistance_opposes (v c : R) (linearDrag : bool) :
  0 <= c ->
  ForceCalculator.airResistance v c linearDrag * v <= 0 /\
  ForceCalculator.airResistance (- v) c linearDrag =
    - ForceCalculator.airResistance v c linearDrag.
Proof.
  intros Hc. unfold ForceCalculator.airResistance. cbv zeta.
  rewrite Rabs_Ropp, sign_opp.
  cmp_goal; [split; lra|].
  pose proof (Rabs_pos v) as Hv.
  split; [|destruct linearDrag; ring].
  destruct linearDrag.
  - replace (- sign v * (c * Rabs v) * v) with (- (sign v * v) * (c * Rabs v)) by ring.
    rewrite sign_mul_self. nra.
  - replace (- sign v * (c * Rabs v * Rabs v) * v)
      with (- (sign v * v) * (c * Rabs v * Rabs v)) by ring.
    rewrite sign_mul_self. assert (0 <= c * Rabs v * Rabs v) by nra. nra.
Qed.

Lemma airResistance_opposes_witness :
  0 <= 0.1 /\
  ForceCalculator.airResistance 3 0.1 false * 3 <= 0 /\
  ForceCalculator.airResistance (- 3) 0.1 false =
    - ForceCalculator.airResistance 3 0.1 false.
Proof. split; [lra | apply (airResistance_opposes 3 0.1 false); lra]. Defined.

(** X4: The components of a resolved force, and of a weight on an incline,
    have the magnitude of the force: x^2 + y^2 = F^2. *)
Theorem components_pythagoras (F theta : R) :
  Vector.magSq (ForceCalculator.resolveForce F theta) = F * F /\
  Vector.mag (ForceCalculator.resolveForce F theta) = Rabs F /\
  let c := ForceCalculator.inclinedPlaneComponents F theta in
  ForceCalculator.parallel c * ForceCalculator.parallel c +
  ForceCalculator.perpendicular c * ForceCalculator.perpendicular c = F * F.
Proof.
  pose proof (sin2_cos2 theta) as H. unfold Rsqr in H.
  assert (Hsq : Vector.magSq (ForceCalculator.resolveForce F theta) = F * F).
  { unfold Vector.magSq, ForceCalculator.resolveForce. cbn. nra. }
  split; [exact Hsq|]. split.
  - unfold Vector.mag. rewrite Hsq. apply sqrt_Rsqr_abs.
  - cbn. nra.
Qed.

Lemma netForce_from (forces : list ForceCalculator.Force) (a : V2) :
  foldl (fun sum force =>
           mkV2 (vx sum + ForceCalculator.orZero (ForceCalculator.fx force))
                (vy sum + ForceCalculator.orZero (ForceCalculator.fy force)))
        a forces =
  Vector.add a (ForceCalculator.netForce forces).
Proof.
  unfold ForceCalculator.netForce. revert a.
  induction forces as [|f forces IH] using rev_ind; intros a.
  - cbn. apply V2_eq; cbn; ring.
  - rewrite !foldl_app. cbn. rewrite IH. apply V2_eq; cbn; ring.
Qed.

(** X5: The net force of no forces is zero, a missing component counts as
    zero, and the net force of two lists together is the sum of their net
    forces. *)
Theorem netForce_additive (fs gs : list ForceCalculator.Force) :
  ForceCalculator.netForce [] = mkV2 0 0 /\
  ForceCalculator.netForce (fs ++ gs) =
    Vector.add (ForceCalculator.netForce fs) (ForceCalculator.netForce gs) /\
  ForceCalculator.netForce (fs ++ [ForceCalculator.mkForce None None]) =
    ForceCalculator.netForce fs.
Proof.
  split; [reflexivity|]. split.
  - unfold ForceCalculator.netForce at 1. rewrite foldl_app.
    fold (ForceCalculator.netForce fs). apply netForce_from.
  - unfold ForceCalculator.netForce. rewrite foldl_app. cbn.
    apply V2_eq; cbn; ring.
Qed.

(** X6: Along a custom direction other than the zero vector, gravity has the
    magnitude |m*g|. *)
Theorem gravity_direction_magnitude (m g : R) (d : V2) :
  d <> mkV2 0 0 ->
  Vector.mag (ForceCalculator.gravity m (Some g) (Some d)) = Rabs (m * g).
Proof.
  intros Hd. unfold ForceCalculator.gravity. cbv zeta.
  rewrite mag_mult, mag_normalize by exact Hd. ring.
Qed.

Lemma gravity_direction_magnitude_witness :
  Vector.mag (ForceCalculator.gravity 2 (Some 9.81) (Some (mkV2 3 (-4)))) =
  Rabs (2 * 9.81).
Proof.
  apply (gravity_direction_magnitude 2 9.81 (mkV2 3 (-4))).
  intros H. apply (f_equal vx) in H. cbn in H. lra.
Defined.

(** ** InclinedPlaneForces *)

(** X7: On the incline the normal force is never negative; a body at rest
    whose net force without friction is within [static * normal] has no
    net force along the plane; a moving body is not pushed along its
    velocity by friction when the kinetic coefficient is not negative; and
    the weight components have the magnitude of the weight. *)
Theorem inclined_plane_forces (ps : InclinedPlaneForces.PlaneParams) (body : Body) :
  let rest := InclinedPlaneForces.calculate ps body false in
  let moving := InclinedPlaneForces.calculate ps body true in
  let net_without_friction f :=
    InclinedPlaneForces.a_parallel (InclinedPlaneForces.applied f) -
    InclinedPlaneForces.w_parallel (InclinedPlaneForces.weight f) in
  0 <= InclinedPlaneForces.normal rest /\
  (Rabs (net_without_friction rest) <=
     InclinedPlaneForces.frictionStatic ps * InclinedPlaneForces.normal rest ->
   InclinedPlaneForces.netParallel rest = 0) /\
  (0 <= InclinedPlaneForces.frictionKinetic ps ->
   InclinedPlaneForces.friction moving * vx (velocity (state body)) <= 0) /\
  (let w := InclinedPlaneForces.weight rest in
   InclinedPlaneForces.w_parallel w * InclinedPlaneForces.w_parallel w +
   InclinedPlaneForces.w_perpendicular w * InclinedPlaneForces.w_perpendicular w =
   InclinedPlaneForces.w_magnitude w * InclinedPlaneForces.w_magnitude w).
Proof.
  cbv zeta. unfold InclinedPlaneForces.calculate. cbn.
  set (th := InclinedPlaneForces.angle ps * PI / 180).
  set (wt := mass (params body) * InclinedPlaneForces.gravity ps).
  match goal with |- context [Rmax 0 ?x] => set (N := Rmax 0 x) end.
  assert (HN : 0 <= N) by apply Rmax_l.
  split; [exact HN|]. split; [|split].
  - intros Hle.
    match goal with |- context [ForceCalculator.staticFriction ?n ?m ?f] =>
      pose proof (staticFriction_spec n m f) as Hst;
      destruct (ForceCalculator.staticFriction n m f) as [fr|]
    end; [|lra].
    destruct Hst as [_ Hf]. lra.
  - intros Hk.
    apply (kineticFriction_spec N (InclinedPlaneForces.frictionKinetic ps)).
    nra.
  - pose proof (sin2_cos2 th) as H. unfold Rsqr in H. nra.
Qed.

(** ** PhysicsBody: forces, Verlet stepping, bounds and hovering *)

Lemma applyForce_acceleration (F : V2) (b : Body) :
  mass (params b) <> 0 ->
  acceleration (state (applyForce F b)) =
    Vector.add (acceleration (state b))
               (mkV2 (vx F / mass (params b)) (vy F / mass (params b))).
Proof.
  intros Hm. unfold applyForce. cbn [state with_state with_acceleration acceleration].
  rewrite div_nonzero by exact Hm. reflexivity.
Qed.

(** X8: Newton's second law over a step: on a body of nonzero mass a force
    applied before a step of [dt > 0] changes the velocity by
    (a + F/m)*dt; and two forces applied one after the other accelerate
    the body as their sum does. *)
Theorem applyForce_newton (F G : V2) (b : Body) (dt : R) :
  mass (params b) <> 0 -> 0 < dt ->
  velocity (state (step dt (applyForce F b))) =
    Vector.add (velocity (state b))
      (Vector.mult (Vector.add (acceleration (state b))
                      (mkV2 (vx F / mass (params b)) (vy F / mass (params b)))) dt) /\
  acceleration (state (applyForce G (applyForce F b))) =
    acceleration (state (applyForce (Vector.add F G) b)).
Proof.
  intros Hm Hdt. split.
  - rewrite step_state by exact Hdt. cbn [velocity].
    rewrite applyForce_acceleration by exact Hm. reflexivity.
  - rewrite !applyForce_acceleration by exact Hm.
    cbn [params applyForce with_state]. apply V2_eq; cbn; field; exact Hm.
Qed.

Lemma applyForce_newton_witness :
  (mass (params ballB) <> 0 /\ 0 < 0.5) /\
  velocity (state (step 0.5 (applyForce (mkV2 0 (-19.62)) ballB))) =
    Vector.add (velocity (state ballB))
      (Vector.mult (Vector.add (acceleration (state ballB))
                      (mkV2 (0 / mass (params ballB))
                            (-19.62 / mass (params ballB)))) 0.5) /\
  acceleration (state (applyForce (mkV2 1 0) (applyForce (mkV2 0 (-19.62)) ballB))) =
    acceleration (state (applyForce (Vector.add (mkV2 0 (-19.62)) (mkV2 1 0)) ballB)).
Proof.
  assert (Hm : mass (params ballB) <> 0) by (cbn; lra).
  split; [split; [exact Hm | lra]|].
  apply (applyForce_newton (mkV2 0 (-19.62)) (mkV2 1 0) ballB 0.5 Hm). lra.
Defined.

(** X9: Position Verlet: for [dt > 0] the new position is
    2*x - x_prev + a*dt^2 (with x_prev = x when no previous position is
    given), the velocity is the displacement over [dt], the acceleration is
    reset, and the position before the step is returned. *)
Theorem stepVerlet_formula (b : Body) (dt : R) (previousPosition : option V2) :
  0 < dt ->
  let b' := fst (stepVerlet dt previousPosition b) in
  let x := position (state b) in
  let prev := default x previousPosition in
  let a := acceleration (state b) in
  snd (stepVerlet dt previousPosition b) = Some x /\
  position (state b') =
    mkV2 (2 * vx x - vx prev + vx a * dt ^ 2) (2 * vy x - vy prev + vy a * dt ^ 2) /\
  velocity (state b') =
    mkV2 ((vx (position (state b')) - vx x) / dt)
         ((vy (position (state b')) - vy x) / dt) /\
  acceleration (state b') = mkV2 0 0.
Proof.
  intros Hdt. cbv zeta. unfold stepVerlet.
  cmp_goal; [lra|]. cbv zeta.
  match goal with |- context [if enabled ?t then _ else _] => destruct (enabled t) end;
    cbn [fst snd state with_state with_bounds with_isMoving updateTrail with_trail
         position velocity acceleration];
    (split; [reflexivity|]); (split; [|split; [|reflexivity]]);
    try (rewrite div_nonzero by lra; reflexivity);
    destruct previousPosition; apply V2_eq; cbn; ring.
Qed.

Lemma stepVerlet_formula_witness :
  0 < 0.5 /\
  let b' := fst (stepVerlet 0.5 (Some (mkV2 4 5)) trailingBody) in
  snd (stepVerlet 0.5 (Some (mkV2 4 5)) trailingBody) = Some (mkV2 5 5) /\
  position (state b') =
    mkV2 (2 * 5 - 4 + 0 * 0.5 ^ 2) (2 * 5 - 5 + 0 * 0.5 ^ 2) /\
  velocity (state b') =
    mkV2 ((vx (position (state b')) - 5) / 0.5)
         ((vy (position (state b')) - 5) / 0.5) /\
  acceleration (state b') = mkV2 0 0.
Proof.
  split; [lra|].
  apply (stepVerlet_formula trailingBody 0.5 (Some (mkV2 4 5))). lra.
Defined.

Lemma Rleb_iff (a b c d : R) : (a <= b <-> c <= d) -> Rleb a b = Rleb c d.
Proof.
  intros H. destruct (Rleb a b) eqn:E1, (Rleb c d) eqn:E2; try reflexivity.
  - apply Rleb_true in E1. apply Rleb_false in E2. apply H in E1. lra.
  - apply Rleb_false in E1. apply Rleb_true in E2. apply H in E2. lra.
Qed.

Lemma dist_self (v : V2) : Vector.dist v v = 0.
Proof.
  unfold Vector.dist, Vector.mag, Vector.magSq, Vector.sub. cbn.
  replace ((vx v - vx v) * (vx v - vx v) + (vy v - vy v) * (vy v - vy v)) with 0 by ring.
  apply sqrt_0.
Qed.

Lemma step_bounds_fresh (dt : R) (b : Body) :
  0 < dt -> bounds (step dt b) = computeBounds (step dt b).
Proof.
  intros Hdt. unfold step. cmp_goal; [lra|]. cbv zeta.
  match goal with |- context [if enabled ?t then _ else _] => destruct (enabled t) end;
    reflexivity.
Qed.

Lemma contains_own_position (b : Body) :
  bounds b = computeBounds b -> 0 <= size (params b) ->
  contains (position (state b)) b = true.
Proof.
  intros Hb Hs. unfold contains. rewrite Hb. unfold computeBounds, Rgeb.
  destruct (String.eqb _ _).
  - rewrite dist_self. apply Rleb_true. lra.
  - cbn. rewrite !andb_true_iff. repeat split; apply Rleb_true; lra.
Qed.

(** X10: After a step of [dt > 0] the bounds are those of the new position, and
    a body of size [>= 0] contains its own centre. *)
Theorem step_refreshes_bounds (b : Body) (dt : R) :
  0 < dt -> 0 <= size (params b) ->
  bounds (step dt b) = computeBounds (step dt b) /\
  contains (position (state (step dt b))) (step dt b) = true.
Proof.
  intros Hdt Hs. pose proof (step_bounds_fresh dt b Hdt) as Hb.
  split; [exact Hb|]. apply contains_own_position; [exact Hb|].
  unfold step. cmp_goal; [lra|]. cbv zeta.
  match goal with |- context [if enabled ?t then _ else _] => destruct (enabled t) end;
    exact Hs.
Qed.

Lemma step_refreshes_bounds_witness :
  (0 < 1 /\ 0 <= size (params trailingBody)) /\
  bounds (step 1 trailingBody) = computeBounds (step 1 trailingBody) /\
  contains (position (state (step 1 trailingBody))) (step 1 trailingBody) = true.
Proof.
  assert (Hs : 0 <= size (params trailingBody)) by (cbn; lra).
  split; [split; [lra | exact Hs]|].
  apply (step_refreshes_bounds trailingBody 1); [lra | exact Hs].
Defined.

Lemma p5_dist_scaled (SCALE CANVAS_HEIGHT mx my : R) (pos : V2) :
  0 < SCALE ->
  p5_dist (vx (Utils.physicsToScreen SCALE CANVAS_HEIGHT pos))
          (vy (Utils.physicsToScreen SCALE CANVAS_HEIGHT pos)) mx my =
  SCALE * Vector.dist (Utils.screenToPhysics SCALE CANVAS_HEIGHT (mkV2 mx my)) pos.
Proof.
  intros HS. unfold p5_dist, Vector.dist, Vector.mag.
  match goal with |- sqrt ?A = _ * sqrt ?B =>
    replace A with (SCALE² * B)
  end.
  - rewrite sqrt_mult; [|apply Rle_0_sqr | apply magSq_nonneg].
    rewrite sqrt_Rsqr by lra. reflexivity.
  - unfold Vector.magSq, Vector.sub, Utils.screenToPhysics, Utils.physicsToScreen,
      Utils.toMeters, Utils.toPixels, Utils.screenYToPhysicsY,
      Utils.physicsYToScreenY, createVector, Rsqr. cbn. field. lra.
Qed.

(** X11: The hover test, made in pixels on the screen, agrees with containment
    in meters: for a positive scale and a body whose bounds are up to date,
    the mouse hovers over the body exactly when the body contains the
    physics position of the mouse. *)
Theorem checkHover_agrees_with_contains (SCALE CANVAS_HEIGHT : R) (p : P5) (b : Body) :
  0 < SCALE -> bounds b = computeBounds b ->
  snd (checkHover SCALE p (toScreenPosition SCALE CANVAS_HEIGHT b) b) =
  contains (Utils.screenToPhysics SCALE CANVAS_HEIGHT (mkV2 (mouseX p) (mouseY p))) b.
Proof.
  intros HS Hb. unfold checkHover, contains, toScreenPosition. rewrite Hb.
  unfold computeBounds. cbn [snd createVector vx vy].
  destruct (String.eqb _ _).
  - rewrite p5_dist_scaled by exact HS. apply Rleb_iff.
    unfold Utils.toPixels.
    set (d := Vector.dist _ _). split; intros H; nra.
  - unfold Rgeb, Utils.physicsToScreen, Utils.screenToPhysics, Utils.toMeters,
      Utils.toPixels, Utils.screenYToPhysicsY, Utils.physicsYToScreenY, createVector.
    cbn [vx vy].
    set (x := vx (position (state b))). set (y := vy (position (state b))).
    set (sz := size (params b)).
    assert (Hx : forall a c : R, a / SCALE <= c <-> a <= c * SCALE).
    { intros a c. split; intros H.
      - apply (Rmult_le_compat_r SCALE) in H; [|lra].
        replace (a / SCALE * SCALE) with a in H by (field; lra). exact H.
      - apply (Rmult_le_reg_r SCALE); [lra|].
        replace (a / SCALE * SCALE) with a by (field; lra). exact H. }
    assert (Hx' : forall a c : R, c <= a / SCALE <-> c * SCALE <= a).
    { intros a c. split; intros H.
      - apply (Rmult_le_compat_r SCALE) in H; [|lra].
        replace (a / SCALE * SCALE) with a in H by (field; lra). exact H.
      - apply (Rmult_le_reg_r SCALE); [lra|].
        replace (a / SCALE * SCALE) with a by (field; lra). exact H. }
    rewrite (Rleb_iff (x * SCALE - sz * SCALE / 2) (mouseX p)
                      (x - sz / 2) (mouseX p / SCALE))
      by (rewrite Hx'; split; intros; lra).
    rewrite (Rleb_iff (mouseX p) (x * SCALE + sz * SCALE / 2)
                      (mouseX p / SCALE) (x + sz / 2))
      by (rewrite Hx; split; intros; lra).
    rewrite (Rleb_iff (CANVAS_HEIGHT - y * SCALE - sz * SCALE / 2) (mouseY p)
                      ((CANVAS_HEIGHT - mouseY p) / SCALE) (y + sz / 2))
      by (rewrite Hx; split; intros; lra).
    rewrite (Rleb_iff (mouseY p) (CANVAS_HEIGHT - y * SCALE + sz * SCALE / 2)
                      (y - sz / 2) ((CANVAS_HEIGHT - mouseY p) / SCALE))
      by (rewrite Hx'; split; intros; lra).
    destruct (Rleb (x - sz / 2) (mouseX p / SCALE)),
             (Rleb (mouseX p / SCALE) (x + sz / 2)),
             (Rleb ((CANVAS_HEIGHT - mouseY p) / SCALE) (y + sz / 2)),
             (Rleb (y - sz / 2) ((CANVAS_HEIGHT - mouseY p) / SCALE)); reflexivity.
Qed.

Lemma checkHover_agrees_with_contains_witness :
  (0 < 100 /\ bounds pressedBall = computeBounds pressedBall) /\
  snd (checkHover 100 pressAtCentre (toScreenPosition 100 600 pressedBall) pressedBall) =
  contains (Utils.screenToPhysics 100 600
              (mkV2 (mouseX pressAtCentre) (mouseY pressAtCentre))) pressedBall.
Proof.
  assert (Hb : bounds pressedBall = computeBounds pressedBall) by reflexivity.
  split; [split; [lra | exact Hb]|].
  apply (checkHover_agrees_with_contains 100 600 pressAtCentre pressedBall);
    [lra | exact Hb].
Defined.

(** ** Utils: conversions of vectors, accelerations and spring constants *)

(** X12: For a positive scale, positions go from physics to screen coordinates
    and back, and from screen to physics and back, unchanged. *)
Theorem position_round_trip (SCALE CANVAS_HEIGHT : R) (v : V2) :
  0 < SCALE ->
  Utils.screenToPhysics SCALE CANVAS_HEIGHT
    (Utils.physicsToScreen SCALE CANVAS_HEIGHT v) = v /\
  Utils.physicsToScreen SCALE CANVAS_HEIGHT
    (Utils.screenToPhysics SCALE CANVAS_HEIGHT v) = v.
Proof.
  intros HS. unfold Utils.screenToPhysics, Utils.physicsToScreen, createVector.
  cbn [vx vy]. split; apply V2_eq; cbn [vx vy].
  - apply toMeters_toPixels; exact HS.
  - apply screenY_physicsY; exact HS.
  - apply toPixels_toMeters; exact HS.
  - apply physicsY_screenY; exact HS.
Qed.

Lemma position_round_trip_witness :
  0 < 100 /\
  Utils.screenToPhysics 100 600 (Utils.physicsToScreen 100 600 (mkV2 2 3)) = mkV2 2 3 /\
  Utils.physicsToScreen 100 600 (Utils.screenToPhysics 100 600 (mkV2 2 3)) = mkV2 2 3.
Proof. split; [lra | apply (position_round_trip 100 600 (mkV2 2 3)); lra]. Defined.

(** X13: For a positive scale the acceleration and spring-constant conversions
    undo each other, and Hooke's force is the same in either unit system:
    the constant in N/pixel on a displacement in pixels gives what the
    constant in N/m gives on the displacement in meters. *)
Theorem unit_conversions_consistent (SCALE a k x : R) :
  0 < SCALE ->
  Utils.accelPxSec_to_SI SCALE (Utils.accelSI_to_pxSec SCALE a) = a /\
  Utils.accelSI_to_pxSec SCALE (Utils.accelPxSec_to_SI SCALE a) = a /\
  Utils.springK_px_to_SI SCALE (Utils.springK_SI_to_px SCALE k) = k /\
  Utils.springK_SI_to_px SCALE (Utils.springK_px_to_SI SCALE k) = k /\
  ForceCalculator.spring (Utils.toPixels SCALE x) (Utils.springK_SI_to_px SCALE k) =
    ForceCalculator.spring x k.
Proof.
  intros HS.
  unfold Utils.accelPxSec_to_SI, Utils.accelSI_to_pxSec, Utils.springK_px_to_SI,
    Utils.springK_SI_to_px, Utils.toPixels, ForceCalculator.spring.
  repeat split; field; lra.
Qed.

Lemma unit_conversions_consistent_witness :
  0 < 100 /\
  Utils.accelPxSec_to_SI 100 (Utils.accelSI_to_pxSec 100 9.81) = 9.81 /\
  Utils.accelSI_to_pxSec 100 (Utils.accelPxSec_to_SI 100 9.81) = 9.81 /\
  Utils.springK_px_to_SI 100 (Utils.springK_SI_to_px 100 200) = 200 /\
  Utils.springK_SI_to_px 100 (Utils.springK_px_to_SI 100 200) = 200 /\
  ForceCalculator.spring (Utils.toPixels 100 0.5) (Utils.springK_SI_to_px 100 200) =
    ForceCalculator.spring 0.5 200.
Proof. split; [lra | apply (unit_conversions_consistent 100 9.81 200 0.5); lra]. Defined.

(** The deprecated [invertYAxis] returns nothing exactly when [h] or [y] is
    missing, and applied twice with the same height it gives [y] back. *)
Theorem invertYAxis_involutive (SCALE : R) (h y : option R) :
  (Utils.invertYAxis SCALE h y = None <-> h = None \/ y = None) /\
  (forall hv yv : R,
     Utils.invertYAxis SCALE (Some hv) (Utils.invertYAxis SCALE (Some hv) (Some yv)) =
     Some yv).
Proof.
  split.
  - destruct h, y; cbn; split; intros H; try discriminate; try reflexivity;
      try (left; reflexivity); try (right; reflexivity).
    destruct H; discriminate.
  - intros hv yv. cbn. f_equal. ring.
Qed.

(** ** Utils: more on the collision with the walls *)

(** X14: A ball that overlaps no wall comes back as it went in. *)
Theorem collideBoundary_inside_unchanged (pos vel : V2) (bounds : Utils.Box)
    (radius restitution : R) (acc : option V2) :
  0 <= vx pos - radius -> vx pos + radius <= Utils.w bounds ->
  0 <= vy pos - radius -> vy pos + radius <= Utils.h bounds ->
  Utils.collideBoundary pos vel bounds radius restitution acc = (pos, vel).
Proof.
  intros H1 H2 H3 H4. unfold Utils.collideBoundary, Rgtb.
  repeat (cmp_goal; try lra). destruct pos, vel; reflexivity.
Qed.

Lemma collideBoundary_inside_unchanged_witness :
  Utils.collideBoundary (mkV2 5 4) (mkV2 3 (-1)) (Utils.mkBox 10 8) 1 0.5
                        (Some (mkV2 0 (-9.81))) = (mkV2 5 4, mkV2 3 (-1)).
Proof.
  apply (collideBoundary_inside_unchanged (mkV2 5 4) (mkV2 3 (-1)) (Utils.mkBox 10 8)
           1 0.5 (Some (mkV2 0 (-9.81)))); cbn; lra.
Defined.

Lemma sqrt_le_abs (a c : R) : 0 <= c -> c <= a ^ 2 -> sqrt (a ^ 2 - c) <= Rabs a.
Proof.
  intros Hc Hle. rewrite <- sqrt_Rsqr_abs. apply sqrt_le_1.
  - lra.
  - apply Rle_0_sqr.
  - unfold Rsqr. lra.
Qed.

(** X15: With restitution in [0,1] a collision never makes the ball faster
    along either axis. *)
Theorem collideBoundary_never_speeds_up (pos vel : V2) (bounds : Utils.Box)
    (radius restitution : R) (acc : option V2) :
  0 <= restitution <= 1 ->
  let r := Utils.collideBoundary pos vel bounds radius restitution acc in
  Rabs (vx (snd r)) <= Rabs (vx vel) /\ Rabs (vy (snd r)) <= Rabs (vy vel).
Proof.
  intros [He0 He1]. cbv zeta.
  assert (Hg : 0 <= match acc with Some a => Rabs (vy a) | None => 0 end)
    by (destruct acc; [apply Rabs_pos | lra]).
  assert (Hscale : forall u, 0 <= u -> Rabs (u * restitution) <= u).
  { intros u Hu. rewrite Rabs_right by nra. nra. }
  assert (Hscale' : forall u, 0 <= u -> Rabs (- u * restitution) <= u).
  { intros u Hu. replace (- u * restitution) with (- (u * restitution)) by ring.
    rewrite Rabs_Ropp. apply Hscale. exact Hu. }
  unfold Utils.collideBoundary. rewrite lift_work by exact Hg. unfold Rgtb.
  pose proof (Rabs_pos (vx vel)). pose proof (Rabs_pos (vy vel)).
  split.
  - repeat cmp_goal; cbn [fst snd vx vy];
      first [apply Hscale; assumption | apply Hscale'; assumption | lra].
  - repeat cmp_goal; cbn [fst snd vx vy];
      try first [apply Hscale; assumption | apply Hscale'; assumption
                | rewrite Rabs_R0; assumption | lra].
    all: match goal with |- Rabs (sqrt ?q * _) <= _ =>
           eapply Rle_trans; [apply Hscale; apply sqrt_pos|]
         end.
    all: apply sqrt_le_abs; [|lra].
    all: assert (0 <= 0 - (vy pos - radius)) by lra; nra.
Qed.

Lemma collideBoundary_never_speeds_up_witness :
  0 <= 0.5 <= 1 /\
  let r := Utils.collideBoundary (mkV2 9.5 0.5) (mkV2 3 (-7)) (Utils.mkBox 10 8)
             1 0.5 (Some (mkV2 0 (-9.81))) in
  Rabs (vx (snd r)) <= Rabs 3 /\ Rabs (vy (snd r)) <= Rabs (-7).
Proof.
  split; [lra|].
  apply (collideBoundary_never_speeds_up (mkV2 9.5 0.5) (mkV2 3 (-7)) (Utils.mkBox 10 8)
           1 0.5 (Some (mkV2 0 (-9.81)))). lra.
Defined.

(** X16: The wall a collision is resolved against is no longer overlapped: after
    a left hit the ball is right of the left wall, after a right hit (not
    also a left one) left of the right wall, after a ceiling hit below the
    ceiling, and after a floor hit (not also a ceiling one) on or above the
    floor. *)
Theorem collideBoundary_clears_wall (pos vel : V2) (bounds : Utils.Box)
    (radius restitution : R) (acc : option V2) :
  let r := Utils.collideBoundary pos vel bounds radius restitution acc in
  (vx pos - radius < 0 -> 0 < vx (fst r) - radius) /\
  (vx pos + radius > Utils.w bounds -> ~ vx pos - radius < 0 ->
     vx (fst r) + radius < Utils.w bounds) /\
  (vy pos + radius > Utils.h bounds -> vy (fst r) + radius < Utils.h bounds) /\
  (vy pos - radius < 0 -> ~ vy pos + radius > Utils.h bounds ->
     0 <= vy (fst r) - radius).
Proof.
  cbv zeta. unfold Utils.collideBoundary, Rgtb.
  repeat cmp_goal; cbn [fst snd vx vy]; repeat split; intros; lra.
Qed.

(** ** DragController: dragging and releasing *)

Lemma startDrag_result (SCALE CANVAS_HEIGHT : R) (body : ref) (mx my : R)
    (store : list Body) (c : Controller) (b : Body) :
  store !! body = Some b ->
  exists b',
    startDrag SCALE CANVAS_HEIGHT body mx my store c =
      (<[body := b']> store,
       mkController
         (mkDragState true (Some body)
            (mkV2 (vx (toScreenPosition SCALE CANVAS_HEIGHT b) - mx)
                  (vy (toScreenPosition SCALE CANVAS_HEIGHT b) - my))
            (if snapBack (config c) then Some (InitialVector (position (state b)))
             else initialPosition (dstate c)))
         (config c)) /\
    velocity (state b') = mkV2 0 0 /\
    position (state b') = position (state b) /\
    params b' = params b /\
    (forall ps, planeState b = Some ps ->
       planeState b' = Some (mkPlaneState (posAlongPlane ps) 0 (accAlongPlane ps))).
Proof.
  intros Hb. unfold startDrag. rewrite Hb.
  eexists. split; [reflexivity|].
  cbn [planeState with_state]. destruct (planeState b) as [ps|]; cbn;
    repeat split; intros; congruence.
Qed.

(** X17: [startDrag] on a body of the store: the controller is dragging that
    body, holds the offset from the mouse to the body's screen position
    (and, with [snapBack], the body's position); the body has lost its
    velocity and kept its position; no other body is touched. *)
Theorem startDrag_begins_drag (SCALE CANVAS_HEIGHT : R) (body : ref) (mx my : R)
    (store : list Body) (c : Controller) (b : Body) :
  store !! body = Some b ->
  let r := startDrag SCALE CANVAS_HEIGHT body mx my store c in
  isDragging (snd r) = true /\
  getDraggedBody (snd r) = Some body /\
  offset (dstate (snd r)) =
    mkV2 (vx (toScreenPosition SCALE CANVAS_HEIGHT b) - mx)
         (vy (toScreenPosition SCALE CANVAS_HEIGHT b) - my) /\
  (snapBack (config c) = true ->
   initialPosition (dstate (snd r)) = Some (InitialVector (position (state b)))) /\
  (exists b', fst r !! body = Some b' /\
              velocity (state b') = mkV2 0 0 /\
              position (state b') = position (state b)) /\
  (forall i : nat, i <> body -> fst r !! i = store !! i).
Proof.
  intros Hb. cbv zeta.
  destruct (startDrag_result SCALE CANVAS_HEIGHT body mx my store c b Hb)
    as (b' & -> & Hv & Hp & _ & _).
  cbn [fst snd]. repeat split.
  - intros ->. reflexivity.
  - exists b'. split; [|split; assumption].
    apply list_lookup_insert_eq. eapply lookup_lt_Some; exact Hb.
  - intros i Hi. apply list_lookup_insert_ne. congruence.
Qed.

Lemma startDrag_begins_drag_witness :
  [pressedBall] !! 0%nat = Some pressedBall /\
  let r := startDrag 100 600 0%nat 210 290 [pressedBall]
             (DragController.constructor true 0) in
  isDragging (snd r) = true /\
  getDraggedBody (snd r) = Some 0%nat /\
  offset (dstate (snd r)) =
    mkV2 (vx (toScreenPosition 100 600 pressedBall) - 210)
         (vy (toScreenPosition 100 600 pressedBall) - 290) /\
  (snapBack (config (DragController.constructor true 0)) = true ->
   initialPosition (dstate (snd r)) =
     Some (InitialVector (position (state pressedBall)))) /\
  (exists b', fst r !! 0%nat = Some b' /\
              velocity (state b') = mkV2 0 0 /\
              position (state b') = position (state pressedBall)) /\
  (forall i : nat, i <> 0%nat -> fst r !! i = [pressedBall] !! i).
Proof.
  split; [reflexivity|].
  apply (startDrag_begins_drag 100 600 0%nat 210 290 [pressedBall]
           (DragController.constructor true 0) pressedBall).
  reflexivity.
Defined.

(** X18: A drag that does not move the mouse does not move the body: after
    [startDrag] at a mouse position, [handleDrag] at the same position
    leaves the body where it was, with or without smoothing. *)
Theorem drag_without_moving_mouse (SCALE CANVAS_HEIGHT : R) (p : P5) (body : ref)
    (store : list Body) (c : Controller) (b : Body) :
  0 < SCALE -> store !! body = Some b ->
  let r := startDrag SCALE CANVAS_HEIGHT body (mouseX p) (mouseY p) store c in
  exists b',
    handleDrag SCALE CANVAS_HEIGHT p None (fst r) (snd r) !! body = Some b' /\
    position (state b') = position (state b).
Proof.
  intros HS Hb. cbv zeta.
  destruct (startDrag_result SCALE CANVAS_HEIGHT body (mouseX p) (mouseY p) store c b Hb)
    as (b' & -> & _ & Hp & _ & _).
  cbn [fst snd]. unfold handleDrag.
  cbn [dstate active negb targetBody offset config vx vy].
  assert (Hlt : (body < length store)%nat) by (eapply lookup_lt_Some; exact Hb).
  rewrite list_lookup_insert_eq by exact Hlt.
  eexists. split.
  - apply list_lookup_insert_eq. rewrite length_insert. exact Hlt.
  - cbn [state with_state with_position position]. rewrite Hp.
    unfold toScreenPosition, Utils.physicsToScreen, Utils.toMeters, Utils.toPixels,
      Utils.screenYToPhysicsY, Utils.physicsYToScreenY, createVector. cbn [vx vy].
    destruct (Rgtb _ 0); apply V2_eq; cbn [vx vy]; field; lra.
Qed.

Lemma drag_without_moving_mouse_witness :
  (0 < 100 /\ [pressedBall] !! 0%nat = Some pressedBall) /\
  let r := startDrag 100 600 0%nat 210 290 [pressedBall]
             (DragController.constructor false 0.5) in
  exists b',
    handleDrag 100 600 (mkP5 210 290 800 600) None (fst r) (snd r) !! 0%nat = Some b' /\
    position (state b') = position (state pressedBall).
Proof.
  split; [split; [lra | reflexivity]|].
  apply (drag_without_moving_mouse 100 600 (mkP5 210 290 800 600) 0%nat [pressedBall]
           (DragController.constructor false 0.5) pressedBall); [lra | reflexivity].
Defined.

(** X19: With [snapBack], releasing puts the body back where the drag began,
    wherever the drag (or a custom update) took it, and resets the
    controller. *)
Theorem snapBack_restores_position (SCALE CANVAS_HEIGHT : R) (p p' : P5)
    (customUpdate : option (Body -> R -> R -> Body)) (body : ref)
    (store : list Body) (c : Controller) (b : Body) :
  snapBack (config c) = true -> store !! body = Some b ->
  let r := startDrag SCALE CANVAS_HEIGHT body (mouseX p) (mouseY p) store c in
  let dragged := handleDrag SCALE CANVAS_HEIGHT p' customUpdate (fst r) (snd r) in
  let released := handleRelease None dragged (snd r) in
  (exists b', fst released !! body = Some b' /\
              position (state b') = position (state b)) /\
  isDragging (snd released) = false /\
  getDraggedBody (snd released) = None /\
  config (snd released) = config c.
Proof.
  intros Hsnap Hb. cbv zeta.
  destruct (startDrag_result SCALE CANVAS_HEIGHT body (mouseX p) (mouseY p) store c b Hb)
    as (b' & -> & _ & _ & _ & _).
  cbn [fst snd]. rewrite Hsnap.
  assert (Hlt : (body < length store)%nat) by (eapply lookup_lt_Some; exact Hb).
  unfold handleDrag. cbn [dstate active negb targetBody offset config].
  rewrite list_lookup_insert_eq by exact Hlt.
  unfold handleRelease.
  cbn [dstate active negb targetBody config snapBack initialPosition fst snd].
  split; [|repeat split].
  destruct customUpdate as [update|];
    (rewrite list_lookup_insert_eq by (rewrite length_insert; exact Hlt));
    rewrite ?Hsnap;
    (eexists; split;
      [apply list_lookup_insert_eq; rewrite !length_insert; exact Hlt | reflexivity]).
Qed.

Lemma snapBack_restores_position_witness :
  (snapBack (config (DragController.constructor true 0)) = true /\
   [pressedBall] !! 0%nat = Some pressedBall) /\
  let r := startDrag 100 600 0%nat 210 290 [pressedBall]
             (DragController.constructor true 0) in
  let dragged := handleDrag 100 600 (mkP5 500 100 800 600) None (fst r) (snd r) in
  let released := handleRelease None dragged (snd r) in
  (exists b', fst released !! 0%nat = Some b' /\
              position (state b') = position (state pressedBall)) /\
  isDragging (snd released) = false /\
  getDraggedBody (snd released) = None /\
  config (snd released) = config (DragController.constructor true 0).
Proof.
  split; [split; reflexivity|].
  apply (snapBack_restores_position 100 600 (mkP5 210 290 800 600)
           (mkP5 500 100 800 600) None 0%nat [pressedBall]
           (DragController.constructor true 0) pressedBall); reflexivity.
Defined.

(** X20: The controller drags exactly when it has a dragged body: this holds of
    a new controller and is kept by [startDrag], [handleRelease] and
    [cancel]; after a release or a cancel the controller is not dragging;
    and on a controller that is not dragging, [handleDrag] and
    [handleRelease] change nothing. *)
Theorem controller_dragging_iff_target (SCALE CANVAS_HEIGHT : R) (c : Controller)
    (store : list Body) :
  let ok c := isDragging c = true <-> getDraggedBody c <> None in
  (forall snap smooth, ok (DragController.constructor snap smooth)) /\
  (ok c -> forall body mx my,
     ok (snd (startDrag SCALE CANVAS_HEIGHT body mx my store c))) /\
  (ok c -> forall onRelease, ok (snd (handleRelease onRelease store c))) /\
  ok (cancel c) /\
  (forall onRelease, isDragging (snd (handleRelease onRelease store c)) = false) /\
  isDragging (cancel c) = false /\
  (isDragging c = false ->
   (forall p customUpdate,
      handleDrag SCALE CANVAS_HEIGHT p customUpdate store c = store) /\
   (forall onRelease, handleRelease onRelease store c = (store, c))).
Proof.
  cbv zeta. unfold isDragging, getDraggedBody.
  split; [intros; cbn; split; [discriminate | congruence]|].
  split; [intros Hok body mx my; unfold startDrag;
          destruct (store !! body); cbn; [split; [discriminate | reflexivity] | exact Hok]|].
  split; [intros Hok f; unfold handleRelease;
          destruct (active (dstate c)) eqn:E; cbn;
          [split; [discriminate | congruence] | rewrite E; exact Hok]|].
  split; [cbn; split; [discriminate | congruence]|].
  split; [intros f; unfold handleRelease;
          destruct (active (dstate c)) eqn:E; cbn; [reflexivity | exact E]|].
  split; [reflexivity|].
  intros Hin. split.
  - intros p cu. unfold handleDrag. rewrite Hin. reflexivity.
  - intros f. unfold handleRelease. rewrite Hin. reflexivity.
Qed.

(** ** InclinedPlaneBody and its drag controller *)

(** X21: A position along the plane goes to the screen and back unchanged: for
    a positive scale, dropping the body at its own screen position keeps
    its position along the plane (and stops it). *)
Theorem plane_position_round_trip (SCALE : R) (planeStart : V2) (angleRad : R)
    (b : Body) (ps : PlaneState) :
  0 < SCALE -> planeState b = Some ps ->
  let sp := InclinedPlaneBody.getScreenPosition SCALE planeStart angleRad b in
  planeState (InclinedPlaneBody.setPositionFromScreen SCALE planeStart angleRad
                (vx sp) (vy sp) b) =
  Some (mkPlaneState (posAlongPlane ps) 0 0).
Proof.
  intros HS Hps. cbv zeta.
  unfold InclinedPlaneBody.setPositionFromScreen, InclinedPlaneBody.getScreenPosition.
  rewrite Hps. cbn [default planeState InclinedPlaneBody.with_plane with_planeState vx vy].
  f_equal. f_equal. unfold Utils.toMeters, Utils.toPixels.
  pose proof (sin2_cos2 angleRad) as H. unfold Rsqr in H.
  change (Datatypes.id ps) with ps.
  match goal with |- ?X / SCALE = _ =>
    replace X with (posAlongPlane ps * SCALE *
                    (sin angleRad * sin angleRad + cos angleRad * cos angleRad)) by ring
  end.
  rewrite H. field. lra.
Qed.

(** A block on the incline, 0.4 m along it, sliding at 1 m/s. *)
Lemma plane_position_round_trip_witness :
  let block := with_planeState pushedBody (Some (mkPlaneState 0.4 1 0)) in
  0 < 100 /\
  let sp := InclinedPlaneBody.getScreenPosition 100 (mkV2 50 500) (PI / 6) block in
  planeState (InclinedPlaneBody.setPositionFromScreen 100 (mkV2 50 500) (PI / 6)
                (vx sp) (vy sp) block) =
  Some (mkPlaneState 0.4 0 0).
Proof.
  cbv zeta. split; [lra|].
  apply (plane_position_round_trip 100 (mkV2 50 500) (PI / 6)
           (with_planeState pushedBody (Some (mkPlaneState 0.4 1 0)))
           (mkPlaneState 0.4 1 0)); [lra | reflexivity].
Defined.

(** X22: On a plane at least as long as the body ([size <= planeLength]),
    [constrainToPlane] leaves the body between [size/2] and
    [planeLength - size/2]; it returns [true] exactly when the body was
    outside, and then the velocity along the plane is multiplied by minus
    the restitution; otherwise the body is unchanged. *)
Theorem constrainToPlane_clamps (planeLength : R) (b : Body) (ps : PlaneState) :
  planeState b = Some ps -> size (params b) <= planeLength ->
  let r := InclinedPlaneBody.constrainToPlane planeLength b in
  let lo := size (params b) / 2 in
  let hi := planeLength - size (params b) / 2 in
  let outside := posAlongPlane ps < lo \/ hi < posAlongPlane ps in
  (exists ps', planeState (fst r) = Some ps' /\
               lo <= posAlongPlane ps' <= hi /\
               (outside ->
                velAlongPlane ps' = velAlongPlane ps * - restitution (params b))) /\
  (snd r = true <-> outside) /\
  (~ outside -> fst r = b).
Proof.
  intros Hps Hsz. cbv zeta. unfold InclinedPlaneBody.constrainToPlane, Rgtb.
  rewrite Hps.
  repeat cmp_goal; cbn [fst snd planeState InclinedPlaneBody.with_plane with_planeState].
  - split; [eexists; split; [reflexivity|]; cbn; split; [lra | reflexivity]|].
    split; [split; [left; lra | reflexivity] | intros H; exfalso; apply H; left; lra].
  - split; [eexists; split; [reflexivity|]; cbn; split; [lra | reflexivity]|].
    split; [split; [right; lra | reflexivity] | intros H; exfalso; apply H; right; lra].
  - split; [exists ps; split; [exact Hps|]; split; [lra | intros [H|H]; lra]|].
    split; [split; [discriminate | intros [H|H]; lra] | reflexivity].
Qed.

Lemma constrainToPlane_clamps_witness :
  let block := with_planeState pushedBody (Some (mkPlaneState 2.8 1 0)) in
  (planeState block = Some (mkPlaneState 2.8 1 0) /\ size (params block) <= 3) /\
  let r := InclinedPlaneBody.constrainToPlane 3 block in
  (exists ps', planeState (fst r) = Some ps' /\
               size (params block) / 2 <= posAlongPlane ps' <= 3 - size (params block) / 2 /\
               velAlongPlane ps' = 1 * - restitution (params block)) /\
  snd r = true.
Proof.
  cbv zeta.
  assert (Hsz : size (params (with_planeState pushedBody (Some (mkPlaneState 2.8 1 0)))) <= 3)
    by (cbn; lra).
  split; [split; [reflexivity | exact Hsz]|].
  destruct (constrainToPlane_clamps 3
              (with_planeState pushedBody (Some (mkPlaneState 2.8 1 0)))
              (mkPlaneState 2.8 1 0) eq_refl Hsz) as ((ps' & Hp & Hr & Hv) & Hc & _).
  cbv zeta in *.
  assert (Hout : posAlongPlane (mkPlaneState 2.8 1 0) <
                   size (params (with_planeState pushedBody (Some (mkPlaneState 2.8 1 0)))) / 2 \/
                 3 - size (params (with_planeState pushedBody (Some (mkPlaneState 2.8 1 0)))) / 2 <
                   posAlongPlane (mkPlaneState 2.8 1 0))
    by (right; cbn; lra).
  split; [exists ps'; split; [exact Hp|]; split; [exact Hr | exact (Hv Hout)]|].
  apply Hc. exact Hout.
Defined.

(** A step along the plane keeps the base state in step with the plane
    state: for [dt > 0] the body's velocity is (velocity along the plane, 0)
    and its acceleration (net force / mass, 0), the velocity along the
    plane has grown by acceleration*dt and the position by the new
    velocity*dt; for [dt <= 0] nothing changes. *)
Theorem stepAlongPlane_syncs (dt F angleRad : R) (b : Body) (ps : PlaneState) :
  planeState b = Some ps ->
  let b' := InclinedPlaneBody.stepAlongPlane dt F angleRad b in
  (dt <= 0 -> b' = b) /\
  (0 < dt ->
   exists ps', planeState b' = Some ps' /\
     accAlongPlane ps' = F / mass (params b) /\
     velAlongPlane ps' = velAlongPlane ps + accAlongPlane ps' * dt /\
     posAlongPlane ps' = posAlongPlane ps + velAlongPlane ps' * dt /\
     velocity (state b') = mkV2 (velAlongPlane ps') 0 /\
     acceleration (state b') = mkV2 (accAlongPlane ps') 0 /\
     position (state b') = position (state b)).
Proof.
  intros Hps. cbv zeta. unfold InclinedPlaneBody.stepAlongPlane. rewrite Hps.
  cmp_goal; split; intros; try lra; try reflexivity.
  eexists. split; [reflexivity|]. cbn. repeat split.
Qed.

Lemma stepAlongPlane_syncs_witness :
  let block := with_planeState pushedBody (Some (mkPlaneState 0.4 1 0)) in
  planeState block = Some (mkPlaneState 0.4 1 0) /\
  InclinedPlaneBody.stepAlongPlane 0 3 (PI / 6) block = block.
Proof.
  cbv zeta. split; [reflexivity|].
  apply (stepAlongPlane_syncs 0 3 (PI / 6)
           (with_planeState pushedBody (Some (mkPlaneState 0.4 1 0)))
           (mkPlaneState 0.4 1 0) eq_refl). lra.
Defined.

(** X23: [InclinedPlaneDragController.handlePress] on a body of the plane: it
    returns [true] exactly when the press is within half the body's size
    (in pixels) of its screen position on the plane; then the controller
    drags that body, which has lost its velocity, along the plane too;
    otherwise the controller is unchanged. *)
Theorem plane_handlePress_hits (SCALE CANVAS_HEIGHT : R) (planeStart : V2)
    (angleRad : R) (p : P5) (body : ref) (store : list Body) (c : Controller)
    (b : Body) (ps : PlaneState) :
  store !! body = Some b -> planeState b = Some ps ->
  let r := plane_handlePress SCALE CANVAS_HEIGHT planeStart angleRad p body store c in
  let sp := InclinedPlaneBody.getScreenPosition SCALE planeStart angleRad b in
  let hit := p5_dist (vx sp) (vy sp) (mouseX p) (mouseY p) <=
             Utils.toPixels SCALE (size (params b)) / 2 in
  (fst r = true <-> hit) /\
  (hit ->
   isDragging (snd (snd r)) = true /\
   getDraggedBody (snd (snd r)) = Some body /\
   exists b', fst (snd r) !! body = Some b' /\
              velocity (state b') = mkV2 0 0 /\
              planeState b' = Some (mkPlaneState (posAlongPlane ps) 0 (accAlongPlane ps))) /\
  (~ hit -> snd (snd r) = c).
Proof.
  intros Hb Hps. cbv zeta. unfold plane_handlePress. rewrite Hb, Hps.
  unfold InclinedPlaneBody.checkHoverOnPlane.
  assert (Hlt : (body < length store)%nat) by (eapply lookup_lt_Some; exact Hb).
  cmp_goal.
  - set (hov := with_isHovered b true).
    assert (Hh : <[body := hov]> store !! body = Some hov)
      by (apply list_lookup_insert_eq; exact Hlt).
    destruct (startDrag_result SCALE CANVAS_HEIGHT body (mouseX p) (mouseY p)
                (<[body := hov]> store) c hov Hh) as (b' & -> & Hv & _ & _ & Hpl).
    cbn [fst snd]. split; [split; [intros; exact Hcmp | reflexivity]|].
    split; [|intros H; contradiction].
    intros _. repeat split.
    exists b'. split; [apply list_lookup_insert_eq; rewrite length_insert; exact Hlt|].
    split; [exact Hv | apply Hpl; exact Hps].
  - cbn [fst snd]. split; [split; [discriminate | intros H; lra]|].
    split; [intros H; lra | reflexivity].
Qed.

Lemma plane_handlePress_hits_witness :
  let block := with_planeState pushedBody (Some (mkPlaneState 0 1 0)) in
  ([block] !! 0%nat = Some block /\ planeState block = Some (mkPlaneState 0 1 0)) /\
  fst (plane_handlePress 100 600 (mkV2 50 500) 0 (mkP5 50 500 800 600) 0%nat [block]
         (DragController.constructor false 0)) = true.
Proof.
  cbv zeta. split; [split; reflexivity|].
  destruct (plane_handlePress_hits 100 600 (mkV2 50 500) 0 (mkP5 50 500 800 600) 0%nat
              [with_planeState pushedBody (Some (mkPlaneState 0 1 0))]
              (DragController.constructor false 0)
              (with_planeState pushedBody (Some (mkPlaneState 0 1 0)))
              (mkPlaneState 0 1 0) eq_refl eq_refl) as (Hhit & _ & _).
  apply Hhit. unfold InclinedPlaneBody.getScreenPosition, p5_dist, Utils.toPixels.
  cbn [vx vy default planeState with_planeState posAlongPlane mouseX mouseY
       size params pushedBody].
  match goal with |- sqrt ?A <= _ => replace A with 0 by (cbn; ring) end.
  rewrite sqrt_0. lra.
Defined.

(** ** The Test page: separation, restitution, frames *)

Lemma collideAt_positive (i j : nat) (bodies : list Body) :
  Forall (fun b => 0 < mass (params b)) bodies ->
  Forall (fun b => 0 < mass (params b)) (collideAt i j bodies).
Proof.
  intros HM. unfold collideAt.
  destruct (bodies !! i) as [body1|] eqn:Hi; [|exact HM].
  destruct (bodies !! j) as [body2|] eqn:Hj; [|exact HM].
  pose proof (Forall_lookup_1 _ _ _ _ HM Hi) as H1.
  pose proof (Forall_lookup_1 _ _ _ _ HM Hj) as H2.
  destruct (resolvePair_params body1 body2) as [Hp1 Hp2].
  destruct (resolvePair body1 body2) as [body1' body2']. cbn [fst snd] in *.
  apply Forall_insert; [apply Forall_insert; [exact HM|]|]; cbn beta;
    [rewrite Hp1 | rewrite Hp2]; assumption.
Qed.

Lemma positive_massive (bodies : list Body) :
  Forall (fun b => 0 < mass (params b)) bodies -> Forall massive bodies.
Proof.
  intros HM. eapply Forall_impl; [exact HM|].
  intros b Hb. unfold massive. cbn beta in Hb. lra.
Qed.

(** X24: Over the whole collision pass of a frame, bodies of positive mass
    keep their total momentum (and their masses stay positive). *)
Theorem collision_pass_conserves_momentum (bodies : list Body) :
  Forall (fun b => 0 < mass (params b)) bodies ->
  totalMomentum (collisions bodies) = totalMomentum bodies /\
  Forall (fun b => 0 < mass (params b)) (collisions bodies).
Proof.
  intros HM. unfold collisions.
  apply (foldl_invariant
           (fun bs => totalMomentum bs = totalMomentum bodies /\
                      Forall (fun b => 0 < mass (params b)) bs)).
  - split; [reflexivity | exact HM].
  - intros bs i _ Hbs.
    apply (foldl_invariant
             (fun bs => totalMomentum bs = totalMomentum bodies /\
                        Forall (fun b => 0 < mass (params b)) bs));
      [exact Hbs|].
    intros bs' j Hj [HT HP]. split; [|apply collideAt_positive; exact HP].
    apply collideAt_invariant.
    + apply elem_of_seq in Hj. lia.
    + split; [exact HT | apply positive_massive; exact HP].
Qed.

Lemma collision_pass_conserves_momentum_witness :
  Forall (fun b => 0 < mass (params b)) [ballA; ballB; pushedBody] /\
  totalMomentum (collisions [ballA; ballB; pushedBody]) =
    totalMomentum [ballA; ballB; pushedBody].
Proof.
  assert (HM : Forall (fun b => 0 < mass (params b)) [ballA; ballB; pushedBody])
    by (repeat constructor; cbn; lra).
  split; [exact HM|].
  apply (collision_pass_conserves_momentum [ballA; ballB; pushedBody] HM).
Defined.





Lemma magSq_unit (n : V2) : Vector.mag n = 1 -> Vector.magSq n = 1.
Proof.
  unfold Vector.mag. intros H.
  rewrite <- (sqrt_sqrt (Vector.magSq n)) by apply magSq_nonneg.
  rewrite H. ring.
Qed.

(** X26: Newton's law of restitution: when the impulse is applied to two bodies
    of positive mass whose centres differ, their relative velocity along
    the collision normal becomes minus the (average) restitution times
    what it was. *)
Theorem resolvePair_restitution (body1 body2 : Body) :
  0 < mass (params body1) -> 0 < mass (params body2) ->
  position (state body1) <> position (state body2) ->
  Vector.dist (position (state body1)) (position (state body2)) < minDist body1 body2 ->
  ~ velAlongNormal body1 body2 < 0 ->
  let e := (restitution (params body1) + restitution (params body2)) / 2 in
  let v1' := velocity (state (fst (resolvePair body1 body2))) in
  let v2' := velocity (state (snd (resolvePair body1 body2))) in
  Vector.dot (Vector.sub v2' v1') (normal body1 body2) =
  - e * velAlongNormal body1 body2.
Proof.
  intros Hm1 Hm2 Hne Hd Hv. cbv zeta.
  rewrite (resolvePair_fires body1 body2 Hd Hv). cbv zeta. cbn [fst snd].
  unfold applyImpulse. cbn [state params with_state with_velocity with_position velocity].
  rewrite !div_nonzero by lra.
  assert (Hd0 : Vector.sub (position (state body2)) (position (state body1)) <> mkV2 0 0).
  { intros H. apply Hne. apply (f_equal vx) in H as Hx. apply (f_equal vy) in H as Hy.
    cbn in Hx, Hy. apply V2_eq; lra. }
  pose proof (magSq_unit (normal body1 body2) (mag_normalize _ Hd0)) as Hn.
  unfold Vector.magSq in Hn.
  unfold impulseOn1, impulseOn2, impulse.
  set (van := velAlongNormal body1 body2) in *.
  assert (Hvan : van = Vector.dot (Vector.sub (velocity (state body2))
                                              (velocity (state body1)))
                                  (normal body1 body2)) by reflexivity.
  set (n := normal body1 body2) in *.
  set (m1 := mass (params body1)) in *. set (m2 := mass (params body2)) in *.
  set (e := (restitution (params body1) + restitution (params body2)) / 2).
  unfold Vector.dot, Vector.sub, Vector.add, Vector.mult in *. cbn [vx vy] in *.
  assert (Hsum : 1 / m1 + 1 / m2 <> 0).
  { assert (0 < 1 / m1) by (apply Rdiv_lt_0_compat; lra).
    assert (0 < 1 / m2) by (apply Rdiv_lt_0_compat; lra). lra. }
  set (j := - (1 + e) * van / (1 / m1 + 1 / m2)).
  assert (Hj : j * (1 / m1 + 1 / m2) = - (1 + e) * van)
    by (unfold j; field; repeat split; lra).
  transitivity (van + j * (1 / m1 + 1 / m2) * (vx n * vx n + vy n * vy n)).
  - rewrite Hvan. field. split; lra.
  - rewrite Hn, Hj. ring.
Qed.

Lemma resolvePair_restitution_witness :
  let e := (restitution (params ballA) + restitution (params ballB)) / 2 in
  Vector.dot (Vector.sub (velocity (state (snd (resolvePair ballA ballB))))
                         (velocity (state (fst (resolvePair ballA ballB)))))
             (normal ballA ballB) =
  - e * velAlongNormal ballA ballB.
Proof.
  apply (resolvePair_restitution ballA ballB).
  - cbn; lra.
  - cbn; lra.
  - intros H. apply (f_equal vx) in H. cbn in H. lra.
  - rewrite dist_ballA_ballB. unfold minDist. cbn. lra.
  - rewrite velAlongNormal_ballA_ballB. lra.
Defined.

Lemma constrainToBounds_inside (b : Body) (minX maxX minY maxY : R) :
  minX <= maxX -> minY <= maxY ->
  let b' := fst (constrainToBounds minX maxX minY maxY b) in
  minX <= vx (position (state b')) <= maxX /\
  minY <= vy (position (state b')) <= maxY /\
  params b' = params b.
Proof.
  intros HX HY. unfold constrainToBounds, Rgtb. cbv zeta.
  destruct (Rltb (vx (position (state b))) minX) eqn:Hx1;
    [apply Rltb_true in Hx1 | apply Rltb_false in Hx1;
     destruct (Rltb maxX (vx (position (state b)))) eqn:Hx2;
       [apply Rltb_true in Hx2 | apply Rltb_false in Hx2]];
  cbn;
  (destruct (Rltb (vy (position (state b))) minY) eqn:Hy1;
    [apply Rltb_true in Hy1 | apply Rltb_false in Hy1;
     destruct (Rltb maxY (vy (position (state b)))) eqn:Hy2;
       [apply Rltb_true in Hy2 | apply Rltb_false in Hy2]]);
  cbn; repeat split; lra.
Qed.

Lemma step_params (dt : R) (b : Body) : params (step dt b) = params b.
Proof.
  unfold step. cmp_goal; [reflexivity|]. cbv zeta.
  match goal with |- context [if enabled ?t then _ else _] => destruct (enabled t) end;
    reflexivity.
Qed.

(** X27: After the per-frame update of a body that fits the canvas (its size is
    at most the canvas width and height in meters), the whole body is
    inside the canvas: its centre is at least a radius from every edge.
    The update takes the restitution from the inputs and leaves mass and
    size alone. *)
Theorem updateBody_within_canvas (SCALE CANVAS_HEIGHT : R) (p : P5)
    (inputs : Inputs) (dt : R) (body : Body) :
  size (params body) <= Utils.toMeters SCALE (width p) ->
  size (params body) <= Utils.toMeters SCALE (height p) ->
  let b' := updateBody SCALE CANVAS_HEIGHT p inputs dt body in
  let radius := size (params body) / 2 in
  radius <= vx (position (state b')) <= Utils.toMeters SCALE (width p) - radius /\
  radius <= vy (position (state b')) <= Utils.toMeters SCALE (height p) - radius /\
  restitution (params b') = input_restitution inputs /\
  mass (params b') = mass (params body) /\
  size (params b') = size (params body).
Proof.
  intros HW HH. cbv zeta. unfold updateBody. cbv zeta.
  match goal with
  | |- context [constrainToBounds ?a ?b ?c ?d (step dt ?x)] =>
      set (pre := x);
      assert (Hpar : params pre =
                     mkParams (mass (params body)) (size (params body))
                              (color (params body)) (shape (params body))
                              (input_restitution inputs))
  end.
  { unfold pre.
    match goal with |- context [if ?c then _ else _] => destruct c end; reflexivity. }
  assert (Hsz : size (params (step dt pre)) = size (params body))
    by (rewrite step_params, Hpar; reflexivity).
  rewrite Hsz.
  destruct (constrainToBounds_inside (step dt pre)
              (size (params body) / 2)
              (Utils.toMeters SCALE (width p) - size (params body) / 2)
              (size (params body) / 2)
              (Utils.toMeters SCALE (height p) - size (params body) / 2))
    as (Hx & Hy & Hp); [lra | lra |].
  cbv zeta in Hx, Hy, Hp.
  unfold checkHover. cbn [fst state params with_isHovered].
  rewrite Hp, step_params, Hpar. cbn [restitution mass size].
  repeat split; first [apply Hx | apply Hy].
Qed.

Lemma updateBody_within_canvas_witness :
  (size (params trailingBody) <= Utils.toMeters 100 800 /\
   size (params trailingBody) <= Utils.toMeters 100 600) /\
  let b' := updateBody 100 600 (mkP5 0 0 800 600) (mkInputs 9.81 true 0.8 0.1) 0.5
              trailingBody in
  let radius := size (params trailingBody) / 2 in
  radius <= vx (position (state b')) <= Utils.toMeters 100 800 - radius /\
  radius <= vy (position (state b')) <= Utils.toMeters 100 600 - radius /\
  restitution (params b') = 0.8 /\
  mass (params b') = mass (params trailingBody) /\
  size (params b') = size (params trailingBody).
Proof.
  assert (HW : size (params trailingBody) <= Utils.toMeters 100 800)
    by (unfold Utils.toMeters; cbn; lra).
  assert (HH : size (params trailingBody) <= Utils.toMeters 100 600)
    by (unfold Utils.toMeters; cbn; lra).
  split; [split; assumption|].
  apply (updateBody_within_canvas 100 600 (mkP5 0 0 800 600) (mkInputs 9.81 true 0.8 0.1)
           0.5 trailingBody HW HH).
Defined.

Lemma collideAt_length (i j : nat) (bodies : list Body) :
  length (collideAt i j bodies) = length bodies.
Proof.
  unfold collideAt. destruct (bodies !! i); [|reflexivity].
  destruct (bodies !! j); [|reflexivity].
  destruct (resolvePair _ _). rewrite !length_insert. reflexivity.
Qed.

Lemma collisions_length (bodies : list Body) :
  length (collisions bodies) = length bodies.
Proof.
  unfold collisions.
  apply (foldl_invariant (fun bs => length bs = length bodies)); [reflexivity|].
  intros bs i _ Hbs.
  apply (foldl_invariant (fun bs => length bs = length bodies)); [exact Hbs|].
  intros bs' j _ Hbs'. rewrite collideAt_length. exact Hbs'.
Qed.

Lemma frame_length (SCALE CANVAS_HEIGHT : R) (p : P5) (inputs : Inputs) (dt : R)
    (bodies : list Body) :
  length (frame SCALE CANVAS_HEIGHT p inputs dt bodies) = length bodies.
Proof.
  unfold frame. cmp_goal; [reflexivity|].
  rewrite collisions_length, length_map. reflexivity.
Qed.

(** ** Spring *)

Lemma add_sub_cancel (a v : V2) : Vector.sub (Vector.add a v) a = v.
Proof. apply V2_eq; cbn; ring. Qed.

Lemma mag_sub_sym (a b : V2) : Vector.mag (Vector.sub a b) = Vector.mag (Vector.sub b a).
Proof. unfold Vector.mag, Vector.magSq. f_equal. cbn. ring. Qed.

Lemma constrain_range (d lo hi : R) :
  lo <= hi -> lo <= Spring.constrain d lo hi <= hi.
Proof.
  intros H. unfold Spring.constrain. split.
  - apply Rmax_r.
  - apply Rmax_lub; [apply Rmin_r | exact H].
Qed.

(** X28: [constrainLength] with [0 <= min <= max], on a body that is not at the
    anchor: afterwards the distance from the anchor is between [min] and
    [max]; a body already in range is unchanged; a body out of range is
    put at the nearest end of the range, on the same side of the anchor,
    with half its velocity. *)
Theorem constrainLength_clamps (s : Spring.Spring) (min max : R) (body : Body) :
  position (state body) <> Spring.anchor s -> 0 <= min <= max ->
  let b' := Spring.constrainLength s min max body in
  let d := Spring.getLength s body in
  min <= Spring.getLength s b' <= max /\
  (min <= d <= max -> b' = body) /\
  (d < min \/ max < d ->
   Spring.getLength s b' = Spring.constrain d min max /\
   velocity (state b') = Vector.mult (velocity (state body)) 0.5).
Proof.
  intros Hne [Hmin Hmax]. cbv zeta.
  unfold Spring.constrainLength, Spring.getLength, Vector.dist, Rgtb.
  set (dir := Vector.sub (position (state body)) (Spring.anchor s)).
  assert (Hdir : dir <> mkV2 0 0).
  { intros H. apply Hne. apply (f_equal vx) in H as Hx. apply (f_equal vy) in H as Hy.
    cbn in Hx, Hy. apply V2_eq; lra. }
  pose proof (constrain_range (Vector.mag dir) min max Hmax) as [Hlo Hhi].
  assert (Hmoved : Vector.mag (Spring.setMag dir (Spring.constrain (Vector.mag dir) min max))
                   = Spring.constrain (Vector.mag dir) min max).
  { unfold Spring.setMag. rewrite mag_mult, mag_normalize by exact Hdir.
    rewrite Rabs_right by lra. ring. }
  destruct (Rltb (Vector.mag dir) min) eqn:E1;
    [apply Rltb_true in E1 | apply Rltb_false in E1;
     destruct (Rltb max (Vector.mag dir)) eqn:E2;
       [apply Rltb_true in E2 | apply Rltb_false in E2]];
  cbn [orb state with_state with_velocity with_position position velocity].
  - rewrite add_sub_cancel, Hmoved. repeat split; intros; try lra; try reflexivity.
  - rewrite add_sub_cancel, Hmoved. repeat split; intros; try lra; try reflexivity.
  - fold dir. repeat split; intros; try lra; try reflexivity;
      match goal with H : _ \/ _ |- _ => destruct H; lra end.
Qed.

(** A bob hanging 4 m under an anchor at (2, 5), on a spring kept between
    1 m and 3 m. *)
Lemma constrainLength_clamps_witness :
  let s := Spring.mkSpring (mkV2 2 5) 1 200 in
  let bob := with_state pushedBody
               (mkState (mkV2 2 1) (mkV2 0 (-2)) (mkV2 0 0) 0 0 0) in
  (position (state bob) <> Spring.anchor s /\ 0 <= 1 <= 3) /\
  1 <= Spring.getLength s (Spring.constrainLength s 1 3 bob) <= 3.
Proof.
  cbv zeta.
  assert (Hne : position (state (with_state pushedBody
                  (mkState (mkV2 2 1) (mkV2 0 (-2)) (mkV2 0 0) 0 0 0))) <>
                Spring.anchor (Spring.mkSpring (mkV2 2 5) 1 200)).
  { intros H. apply (f_equal vy) in H. cbn in H. lra. }
  split; [split; [exact Hne | lra]|].
  apply (constrainLength_clamps (Spring.mkSpring (mkV2 2 5) 1 200) 1 3
           (with_state pushedBody (mkState (mkV2 2 1) (mkV2 0 (-2)) (mkV2 0 0) 0 0 0))
           Hne). lra.
Defined.

(** [connect] on a body of positive mass: closer than 0.0001 to the anchor
    the body is left alone; otherwise its acceleration changes by a vector
    of magnitude |k * (length - restLength)| / mass, along the line through
    body and anchor: the unit vector from the body to the anchor times
    [getSpringForce] over the mass. *)
Theorem connect_hooke (s : Spring.Spring) (body : Body) :
  0 < mass (params body) ->
  let L := Spring.getLength s body in
  let a := acceleration (state body) in
  let a' := acceleration (state (Spring.connect s body)) in
  (L < 0.0001 -> Spring.connect s body = body) /\
  (0.0001 <= L ->
   a' = Vector.add a
          (Vector.mult (Vector.sub (Spring.anchor s) (position (state body)))
                       (Spring.getSpringForce s body / (L * mass (params body)))) /\
   Vector.mag (Vector.sub a' a) =
     Rabs (Spring.k s * (L - Spring.restLength s)) / mass (params body)).
Proof.
  intros Hm. cbv zeta.
  unfold Spring.connect, Spring.getSpringForce, Spring.getDisplacement,
    Spring.getLength, Vector.dist.
  rewrite (mag_sub_sym (position (state body)) (Spring.anchor s)).
  set (f := Vector.sub (Spring.anchor s) (position (state body))).
  cmp_goal; split; intros; try lra; try reflexivity.
  assert (Hf : f <> mkV2 0 0).
  { intros Hz. apply mag_zero_iff in Hz. lra. }
  assert (HL : 0 < Vector.mag f) by lra.
  rewrite applyForce_acceleration by lra.
  rewrite normalize_nonzero by exact Hf.
  cbn [vx vy Vector.mult].
  assert (Hadd :
    Vector.add (acceleration (state body))
      (mkV2 (vx f * (1 / Vector.mag f) * (- Spring.k s * (Vector.mag f - Spring.restLength s)) /
               mass (params body))
            (vy f * (1 / Vector.mag f) * (- Spring.k s * (Vector.mag f - Spring.restLength s)) /
               mass (params body))) =
    Vector.add (acceleration (state body))
      (Vector.mult f (- Spring.k s * (Vector.mag f - Spring.restLength s) /
                      (Vector.mag f * mass (params body))))).
  { apply V2_eq; cbn; field; lra. }
  rewrite Hadd. split; [reflexivity|].
  rewrite add_sub_cancel, mag_mult.
  replace (- Spring.k s * (Vector.mag f - Spring.restLength s) /
           (Vector.mag f * mass (params body)))
    with (- (Spring.k s * (Vector.mag f - Spring.restLength s)) *
          / (Vector.mag f * mass (params body))) by (field; lra).
  rewrite Rabs_mult, Rabs_Ropp.
  rewrite (Rabs_right (/ _)).
  - field. lra.
  - apply Rle_ge. apply Rlt_le. apply Rinv_0_lt_compat. nra.
Qed.

Lemma connect_hooke_witness :
  let s := Spring.mkSpring (mkV2 0 0) 1 200 in
  0 < mass (params pushedBody) /\
  Spring.connect s pushedBody = pushedBody.
Proof.
  cbv zeta. assert (Hm : 0 < mass (params pushedBody)) by (cbn; lra).
  split; [exact Hm|].
  destruct (connect_hooke (Spring.mkSpring (mkV2 0 0) 1 200) pushedBody Hm) as [H0 _].
  apply H0. unfold Spring.getLength. cbn [Spring.anchor pushedBody state position].
  rewrite dist_self. lra.
Defined.

(** ** PendulumBody *)

Lemma on_circle (a : V2) (L theta : R) :
  Vector.dist a (mkV2 (vx a + L * sin theta) (vy a + L * cos theta)) = Rabs L.
Proof.
  unfold Vector.dist, Vector.mag, Vector.magSq, Vector.sub. cbn [vx vy].
  pose proof (sin2_cos2 theta) as H. unfold Rsqr in H.
  replace ((vx a + L * sin theta - vx a) * (vx a + L * sin theta - vx a) +
           (vy a + L * cos theta - vy a) * (vy a + L * cos theta - vy a))
    with (L² * (sin theta * sin theta + cos theta * cos theta))
    by (unfold Rsqr; ring).
  rewrite H, Rmult_1_r. apply sqrt_Rsqr_abs.
Qed.

Lemma tangent_velocity (a : V2) (L speed theta : R) :
  Vector.dot (mkV2 (speed * cos theta) (- speed * sin theta))
             (Vector.sub (mkV2 (vx a + L * sin theta) (vy a + L * cos theta)) a) = 0 /\
  Vector.mag (mkV2 (speed * cos theta) (- speed * sin theta)) = Rabs speed.
Proof.
  split.
  - unfold Vector.dot, Vector.sub. cbn [vx vy]. ring.
  - unfold Vector.mag, Vector.magSq. cbn [vx vy].
    pose proof (sin2_cos2 theta) as H. unfold Rsqr in H.
    replace (speed * cos theta * (speed * cos theta) +
             - speed * sin theta * (- speed * sin theta))
      with (speed² * (sin theta * sin theta + cos theta * cos theta))
      by (unfold Rsqr; ring).
    rewrite H, Rmult_1_r. apply sqrt_Rsqr_abs.
Qed.

Lemma updateTrail_position (b : Body) :
  position (state (updateTrail b)) = position (state b) /\
  velocity (state (updateTrail b)) = velocity (state b).
Proof. split; reflexivity. Qed.

(** X29: The pendulum of nonzero length stays on its circle: after
    [setAngle], and after a [stepPendulum] with [dt > 0] whatever the angle
    it starts from, the bob is at distance |length| from the anchor; after
    the step its velocity is at right angles to the rod and has magnitude
    |angular velocity * length|; anchor and length never change. *)
Theorem pendulum_stays_on_circle (atan2 : R -> R -> R) (dt gravity damping angleRad : R)
    (pb : Pendulum.PendulumBody) :
  Pendulum.length pb <> 0 ->
  let set := Pendulum.setAngle angleRad pb in
  let stepped := Pendulum.stepPendulum atan2 dt gravity damping pb in
  let rod q := Vector.sub (position (state (Pendulum.body q))) (Pendulum.anchor q) in
  Vector.dist (Pendulum.anchor set) (position (state (Pendulum.body set))) =
    Rabs (Pendulum.length pb) /\
  velocity (state (Pendulum.body set)) = mkV2 0 0 /\
  Pendulum.angularVel set = 0 /\
  Pendulum.anchor stepped = Pendulum.anchor pb /\
  Pendulum.length stepped = Pendulum.length pb /\
  (dt <= 0 -> stepped = pb) /\
  (0 < dt ->
   Vector.dist (Pendulum.anchor stepped) (position (state (Pendulum.body stepped))) =
     Rabs (Pendulum.length pb) /\
   Vector.dot (velocity (state (Pendulum.body stepped))) (rod stepped) = 0 /\
   Vector.mag (velocity (state (Pendulum.body stepped))) =
     Rabs (Pendulum.angularVel stepped * Pendulum.length stepped)).
Proof.
  intros _.
  cbv zeta. split; [apply on_circle|]. split; [reflexivity|]. split; [reflexivity|].
  unfold Pendulum.stepPendulum.
  cmp_goal; cbv zeta.
  - repeat split; intros; try reflexivity; lra.
  - match goal with |- context [if enabled ?t then _ else _] => destruct (enabled t) end;
      cbn [Pendulum.anchor Pendulum.length Pendulum.body Pendulum.angularVel];
      rewrite ?(proj1 (updateTrail_position _)), ?(proj2 (updateTrail_position _));
      cbn [state with_state with_isMoving with_position with_velocity position velocity];
      (split; [reflexivity|]); (split; [reflexivity|]);
      (split; [intros; lra|]); intros _;
      (split; [apply on_circle|]);
      apply tangent_velocity.
Qed.

(** The hanging pendulum, set to an angle and stepped by 0.1 s, is 2 m
    from its anchor either way. *)
Lemma pendulum_stays_on_circle_witness :
  Pendulum.length hangingPendulum <> 0 /\
  Vector.dist (Pendulum.anchor (Pendulum.setAngle 1 hangingPendulum))
              (position (state (Pendulum.body (Pendulum.setAngle 1 hangingPendulum)))) =
    Rabs (Pendulum.length hangingPendulum) /\
  let stepped := Pendulum.stepPendulum (fun _ _ => 0) 0.1 9.81 0.2 hangingPendulum in
  Vector.dist (Pendulum.anchor stepped) (position (state (Pendulum.body stepped))) =
    Rabs (Pendulum.length hangingPendulum).
Proof.
  assert (HL : Pendulum.length hangingPendulum <> 0) by (cbn; lra).
  split; [exact HL|].
  destruct (pendulum_stays_on_circle (fun _ _ => 0) 0.1 9.81 0.2 1 hangingPendulum HL)
    as (Hset & _ & _ & _ & _ & _ & Hstep).
  split; [exact Hset|]. cbv zeta in *.
  destruct (Hstep ltac:(lra)) as (Hd & _ & _). exact Hd.
Defined.

(** ** ParabolicMotion: the predicted path *)

Lemma trajectoryLoop_spec (SCALE : R) (n i : nat) (dt : R)
    (a : ParabolicMotion.Analytics) (sp : V2) (gravity ground : R) :
  0 < SCALE ->
  let pts := ParabolicMotion.trajectoryLoop SCALE n i dt a sp gravity ground in
  (length pts <= n)%nat /\
  Forall (fun q => Utils.toMeters SCALE (vy q) <= ground) pts.
Proof.
  intros HS. cbv zeta. revert i.
  induction n as [|n IH]; intros i; cbn [ParabolicMotion.trajectoryLoop].
  - split; [cbn; lia | constructor].
  - cbv zeta. unfold Rgtb. cmp_goal.
    + split; [cbn; lia | constructor].
    + destruct (IH (S i)) as [Hl Hf]. split; [cbn; lia|].
      constructor; [|exact Hf]. cbn [vy]. rewrite toMeters_toPixels by exact HS.
      exact Hcmp.
Qed.

(** X30: The predicted path has at most [TRAJECTORY_STEPS + 1] points, none of
    them below the ground line (canvas height less the radius, for a
    positive scale); it is empty without analytics, without a start
    position, or for a flight time that is not positive; and it starts at
    the start position when that is not below the ground line. *)
Theorem buildTrajectoryPoints_bounded (SCALE : R) (p : P5)
    (analytics : option ParabolicMotion.Analytics) (startPos : option V2)
    (gravity radius : R) :
  0 < SCALE ->
  let pts := ParabolicMotion.buildTrajectoryPoints SCALE p analytics startPos
               gravity radius in
  let ground := Utils.toMeters SCALE (height p) - radius in
  (length pts <= 97)%nat /\
  Forall (fun q => Utils.toMeters SCALE (vy q) <= ground) pts /\
  (analytics = None \/ startPos = None -> pts = []) /\
  (forall a, analytics = Some a -> ParabolicMotion.flightTime a <= 0 -> pts = []) /\
  (forall a sp, analytics = Some a -> startPos = Some sp ->
     0 < ParabolicMotion.flightTime a -> vy sp <= ground ->
     head pts = Some (mkV2 (Utils.toPixels SCALE (vx sp)) (Utils.toPixels SCALE (vy sp)))).
Proof.
  intros HS. cbv zeta. unfold ParabolicMotion.buildTrajectoryPoints.
  destruct analytics as [a|], startPos as [sp|]; cbv zeta.
  2-4: (split; [cbn; lia|]); (split; [constructor|]); (split; [reflexivity|]);
       split; intros; first [reflexivity | discriminate].
  cmp_goal.
  - split; [cbn; lia|]. split; [constructor|].
    split; [intros [H|H]; discriminate|]. split; [reflexivity|].
    intros a' sp' Ha _ Hpos. injection Ha as <-. lra.
  - pose proof (trajectoryLoop_spec SCALE (S ParabolicMotion.TRAJECTORY_STEPS) 0
                  (ParabolicMotion.flightTime a / INR ParabolicMotion.TRAJECTORY_STEPS)
                  a sp gravity (Utils.toMeters SCALE (height p) - radius) HS) as [Hl Hf].
    cbv zeta in Hl, Hf.
    split; [exact Hl|]. split; [exact Hf|].
    split; [intros [H|H]; discriminate|].
    split; [intros a' Ha Hle; injection Ha as <-; lra|].
    intros a' sp' Ha Hsp _ Hy. injection Ha as <-. injection Hsp as <-.
    cbn [ParabolicMotion.trajectoryLoop]. cbv zeta. unfold Rgtb.
    replace (ParabolicMotion.flightTime a / INR ParabolicMotion.TRAJECTORY_STEPS * INR 0)
      with 0 by (cbn [INR]; ring).
    replace (vx sp + ParabolicMotion.vx0 a * 0) with (vx sp) by ring.
    replace (vy sp - ParabolicMotion.vy0 a * 0 + 0.5 * gravity * 0 * 0) with (vy sp) by ring.
    cmp_goal; [lra | reflexivity].
Qed.

Lemma buildTrajectoryPoints_bounded_witness :
  0 < 100 /\
  let pts := ParabolicMotion.buildTrajectoryPoints 100 (mkP5 0 0 800 600)
               (Some (ParabolicMotion.mkAnalytics 2 3 4)) (Some (mkV2 1 5)) 9.81 0.5 in
  (length pts <= 97)%nat /\
  Forall (fun q => Utils.toMeters 100 (vy q) <= Utils.toMeters 100 600 - 0.5) pts.
Proof.
  split; [lra|].
  destruct (buildTrajectoryPoints_bounded 100 (mkP5 0 0 800 600)
              (Some (ParabolicMotion.mkAnalytics 2 3 4)) (Some (mkV2 1 5)) 9.81 0.5
              ltac:(lra)) as (Hl & Hf & _).
  split; [exact Hl | exact Hf].
Defined.
